(** * PrintOpToLLVM: lowering of [tt.print] to device [printf] calls

    A shallow embedding of
    [third_party/intel/lib/TritonIntelGPUToLLVM/PrintOpToLLVM.cpp]:
    the conversion-specifier resolver [getFormatSubstr], the per-operand
    line builder [printTensor] and the pattern driver [matchAndRewrite].

    C++ [assert]s and out-of-range accesses are modelled as failure
    ([None]); the rewriter is an explicit state recording the interned
    strings and the emitted [printf] calls. *)

From Stdlib Require Import List String Ascii ZArith NArith Bool Lia.
From Stdlib Require Import DecimalString.
From Stdlib Require PrimFloat Uint63.
Import ListNotations.

Local Open Scope list_scope.
Local Open Scope string_scope.

(** ** Strings *)

Module Str.

(** [std::to_string(unsigned)] and [os << size_t]. *)
Definition of_unsigned (n : N) : string :=
  NilZero.string_of_uint (N.to_uint n).

(** [std::to_string(int)]. *)
Definition of_int (z : Z) : string :=
  NilZero.string_of_int (Z.to_int z).

(** Does the character [c] occur in [s]? *)
Fixpoint occurs (c : ascii) (s : string) : bool :=
  match s with
  | EmptyString => false
  | String a s' => Ascii.eqb a c || occurs c s'
  end.

(** Number of occurrences of the character [c] in [s]. *)
Fixpoint count (c : ascii) (s : string) : nat :=
  match s with
  | EmptyString => 0
  | String a s' => (if Ascii.eqb a c then 1 else 0) + count c s'
  end.

(** The characters [std::to_string] produces. *)
Definition isDecimalChar (c : ascii) : bool :=
  match c with
  | "0" | "1" | "2" | "3" | "4" | "5" | "6" | "7" | "8" | "9" | "-" => true
  | _ => false
  end%char.

(** [sub] occurs in [s] as a contiguous run of characters. *)
Definition contains (sub s : string) : Prop :=
  exists pre post, s = pre ++ sub ++ post.

End Str.

(** ** MLIR types and values *)

Inductive Signedness := Signless | Signed | Unsigned.

Inductive FloatKind :=
| Float8E5M2 | Float8E4M3FN | BF16 | F16 | TF32 | F32 | F64 | F80 | F128.

(** The part of [mlir::Type] the lowering inspects. [OtherType] stands
    for every type that is neither a pointer, an integer nor a float
    (index, vector, struct, ...). *)
Inductive MType :=
| LLVMPointerType
| FloatType (k : FloatKind)
| IntegerType (s : Signedness) (width : N)
| OtherType.

Definition floatWidth (k : FloatKind) : N :=
  match k with
  | Float8E5M2 | Float8E4M3FN => 8
  | BF16 | F16 => 16
  | TF32 => 19
  | F32 => 32
  | F64 => 64
  | F80 => 80
  | F128 => 128
  end%N.

(** [Type::getIntOrFloatBitWidth]: asserts [isIntOrFloat()]. *)
Definition getIntOrFloatBitWidth (t : MType) : option N :=
  match t with
  | IntegerType _ w => Some w
  | FloatType k => Some (floatWidth k)
  | _ => None
  end.

Definition isa_LLVMPointerType (t : MType) : bool :=
  match t with LLVMPointerType => true | _ => false end.
Definition isBF16 (t : MType) : bool :=
  match t with FloatType BF16 => true | _ => false end.
Definition isF16 (t : MType) : bool :=
  match t with FloatType F16 => true | _ => false end.
Definition isF32 (t : MType) : bool :=
  match t with FloatType F32 => true | _ => false end.
Definition isF64 (t : MType) : bool :=
  match t with FloatType F64 => true | _ => false end.
Definition isSignedInteger (t : MType) : bool :=
  match t with IntegerType Signed _ => true | _ => false end.
Definition isUnsignedInteger (t : MType) : bool :=
  match t with IntegerType Unsigned _ => true | _ => false end.
Definition isSignlessInteger (t : MType) : bool :=
  match t with IntegerType Signless _ => true | _ => false end.

(** An SSA value: either one handed in by a collaborator (operand
    element, tensor index, program id), identified by [id], or the
    address of an interned string, identified by its slot in the
    module's string table. *)
Inductive Value :=
| SSAValue (ty : MType) (id : nat)
| GlobalString (slot : nat).

Definition getType (v : Value) : MType :=
  match v with
  | SSAValue ty _ => ty
  | GlobalString _ => LLVMPointerType
  end.

(** ** The specifier resolver *)

Definition getFormatSubstr (value : Value) (hex : bool) (width : option Z)
  : option string :=
  let type := getType value in
  if isa_LLVMPointerType type then Some "%p"
  else
    match getIntOrFloatBitWidth type with
    | None => None
    | Some typeBits =>
      if hex then
        let ret := "0x%0" ++ Str.of_unsigned (typeBits / 4) in
        let ret := if (32 <? typeBits)%N then ret ++ "ll" else ret in
        Some (ret ++ "x")
      else
        let prefix := "%" in
        let prefix :=
          match width with
          | Some w => prefix ++ Str.of_int w
          | None =>
            if hex then (prefix ++ "0") ++ Str.of_unsigned (typeBits / 4)
            else prefix
          end in
        if isa_LLVMPointerType type then Some (prefix ++ "p")
        else if isBF16 type || isF16 type || isF32 type || isF64 type
        then Some (prefix ++ "f")
        else if isSignedInteger type then
          if (typeBits =? 64)%N then Some (prefix ++ "lli")
          else Some (prefix ++ "i")
        else if isUnsignedInteger type || isSignlessInteger type then
          if (typeBits =? 64)%N then Some (prefix ++ "llu")
          else Some (prefix ++ "u")
        else None
    end.

(** ** The rewriter

    The conversion emits into a [ConversionPatternRewriter]. Of its
    state the lowering touches the module's table of interned strings,
    the [printf] calls emitted so far and the erasure of the matched
    op. *)

Record PrintfCall := {
  callFormat : Value;
  callArgs : list Value
}.

Record Rewriter := {
  globals : list string;
  calls : list PrintfCall;
  erased : bool
}.

(** State and failure: [None] is a failed [assert] or an access out of
    range. *)
Definition M (A : Type) : Type := Rewriter -> option (A * Rewriter).

Definition ret {A} (a : A) : M A := fun rw => Some (a, rw).

Definition bind {A B} (m : M A) (k : A -> M B) : M B :=
  fun rw => match m rw with
            | Some (a, rw') => k a rw'
            | None => None
            end.

Definition fail {A} : M A := fun _ => None.

Definition lift {A} (o : option A) : M A :=
  match o with
  | Some a => ret a
  | None => fail
  end.

Declare Scope rewriter_scope.
Delimit Scope rewriter_scope with rw.
Notation "x <- m ;; k" := (bind m (fun x => k))
  (at level 61, m at next level, right associativity) : rewriter_scope.
Notation "' pat <- m ;; k" := (bind m (fun x => match x with pat => k end))
  (at level 61, pat pattern, m at next level, right associativity)
  : rewriter_scope.
Notation "m ;; k" := (bind m (fun _ => k))
  (at level 61, right associativity) : rewriter_scope.

Local Open Scope rewriter_scope.

(** Modelled from the spec: [LLVM::utils::addStringToModule] (declared
    in [Utility.h]) interns a string in the constant-data segment and
    returns a handle usable as a [%s] argument. The handle is the slot
    of the string in the table. *)
Definition addStringToModule (str : string) : M Value :=
  fun rw =>
    Some (GlobalString (List.length (globals rw)),
          {| globals := globals rw ++ [str];
             calls := calls rw;
             erased := erased rw |}).

(** Modelled from the spec: the emit primitive
    [LLVM::utils::llPrintf(rewriter, Value msg, args)] (declared in
    [Utility.h]) emits one formatted call against an already registered
    format string. *)
Definition llPrintfValue (msg : Value) (args : list Value) : M unit :=
  fun rw =>
    Some (tt,
          {| globals := globals rw;
             calls := calls rw ++ [{| callFormat := msg; callArgs := args |}];
             erased := erased rw |}).

(** Modelled from the spec: the emit primitive
    [LLVM::utils::llPrintf(rewriter, StringRef msg, args)] (declared in
    [Utility.h]) registers the text, emits the call and returns the
    handle of the registered text. *)
Definition llPrintf (msg : string) (args : list Value) : M Value :=
  msgValue <- addStringToModule msg ;;
  llPrintfValue msgValue args ;;
  ret msgValue.

Definition eraseOp : M unit :=
  fun rw =>
    Some (tt, {| globals := globals rw; calls := calls rw; erased := true |}).

(** ** The request *)

Inductive OperandType :=
| RankedTensorType (getShape : list Z)
| ScalarType.

(** One operand of the print op together with what the collaborators
    return for it on the issuing thread: [unpackLLElements] the
    elements resident in the thread, [emitIndices] their coordinates
    (consulted for ranked tensors only). *)
Record Operand := {
  operandType : OperandType;
  unpackLLElements : list Value;
  emitIndices : list (list Value)
}.

Record PrintOp := {
  getPrefix : string;
  getOperands : list Operand;
  getHex : bool
}.

Inductive LogicalResult := success | failure.

Definition PidArray : Type := Value * Value * Value.

Definition pidValues (pid : PidArray) : list Value :=
  let '(x, y, z) := pid in [x; y; z].

Definition kMaxPrintfOperands : Z := 32.

(** The mathematically exact least [k] with [dim <= 10^k], by repeated
    multiplication; 20 rounds cover every positive [int64_t]. *)
Fixpoint ceil_log10_from (fuel : nat) (pow k dim : Z) : Z :=
  match fuel with
  | O => k
  | S fuel' =>
    if (dim <=? pow)%Z then k
    else ceil_log10_from fuel' (10 * pow)%Z (k + 1)%Z dim
  end.

Definition exact_ceil_log10 (dim : Z) : Z := ceil_log10_from 20 1 0 dim.



Section PrintOpConversion.

(** [static_cast<int>(std::ceil(std::log10(dim)))] on an [int64_t]
    [dim > 0]: a composite of libm's double-precision functions, kept
    abstract. *)
Variable ceil_log10 : Z -> Z.

(** [LLVM::utils::llGetPid(loc, rewriter, module, axis)]: the program
    id along [axis], supplied by a collaborator. *)
Variable llGetPid : nat -> Value.

(** *** [printTensor] *)

(** Lines 117-123: the loop over [pid]. *)
Fixpoint pidLoop (pid : list Value) (j : nat)
    (os : string) (printfOperands : list Value)
  : option (string * list Value) :=
  match pid with
  | [] => Some (os, printfOperands)
  | p :: pid' =>
    let os := if Nat.eqb j 0 then os else os ++ ", " in
    match getFormatSubstr p false None with
    | None => None
    | Some sub => pidLoop pid' (S j) (os ++ sub) (printfOperands ++ [p])
    end
  end.

(** Lines 133-144: the loop over the components of one index, with its
    [break] at [maxAllowedRank]. [index] is the part of the index still
    to visit, [dim] the position of its head. *)
Fixpoint indexLoop (dimWidths : list Z) (maxAllowedRank : Z)
    (index : list Value) (dim : nat)
    (os : string) (printfOperands : list Value)
  : option (string * list Value) :=
  match index with
  | [] => Some (os, printfOperands)
  | v :: index' =>
    let os := if Nat.eqb dim 0 then os else os ++ ", " in
    if (Z.of_nat dim =? maxAllowedRank)%Z
    then Some (os ++ "... (truncated)", printfOperands)
    else
      match nth_error dimWidths dim with
      | None => None
      | Some w =>
        match getFormatSubstr v false (Some w) with
        | None => None
        | Some sub =>
          indexLoop dimWidths maxAllowedRank index' (S dim)
                    (os ++ sub) (printfOperands ++ [v])
        end
      end
  end.

(** Lines 105-156: the format string and the operands built for one
    element. [printfOperands.size()] is 3 where [maxAllowedRank] is
    computed, so the mixed [int]/[size_t] arithmetic does not wrap. *)
Definition formatLine (prefixStr : Value) (operand numOperands : nat)
    (elem : Value) (pid : PidArray) (index : list Value)
    (dimWidths : list Z) (hex : bool)
  : option (string * list Value) :=
  match pidLoop (pidValues pid) 0 "pid (" [] with
  | None => None
  | Some (os, printfOperands) =>
    let os := os ++ ") " in
    let maxAllowedRank :=
      (kMaxPrintfOperands - Z.of_nat (List.length printfOperands) - 2)%Z in
    let os := os ++ "idx (" in
    match indexLoop dimWidths maxAllowedRank index 0 os printfOperands with
    | None => None
    | Some (os, printfOperands) =>
      let os := os ++ ")" in
      let os := os ++ "%s" in
      let printfOperands := (printfOperands ++ [prefixStr])%list in
      let os :=
        if (1 <? numOperands)%nat
        then ((os ++ "(operand ") ++ Str.of_unsigned (N.of_nat operand))
               ++ ") "
        else os in
      match getFormatSubstr elem hex None with
      | None => None
      | Some sub => Some (os ++ sub, (printfOperands ++ [elem])%list)
      end
    end
  end.

(** Lines 104-168: the loop over the elements. [elems] is the part of
    the element list still to visit and [i] the position of its head;
    [formatStrValue] is the handle cached by the first iteration (the
    default-constructed [Value] is [None]). *)
Fixpoint elemLoop (prefixStr : Value) (operand numOperands : nat)
    (pid : PidArray) (indices : list (list Value))
    (dimWidths : list Z) (hex : bool)
    (elems : list Value) (i : nat) (formatStrValue : option Value)
  : M unit :=
  match elems with
  | [] => ret tt
  | elem :: elems' =>
    index <- lift (nth_error indices i) ;;
    ' (formatStr, printfOperands) <-
      lift (formatLine prefixStr operand numOperands elem pid index
                       dimWidths hex) ;;
    if Nat.eqb i 0 then
      v <- llPrintf formatStr printfOperands ;;
      elemLoop prefixStr operand numOperands pid indices dimWidths hex
               elems' (S i) (Some v)
    else
      v <- lift formatStrValue ;;
      llPrintfValue v printfOperands ;;
      elemLoop prefixStr operand numOperands pid indices dimWidths hex
               elems' (S i) formatStrValue
  end.

Definition printTensor (prefixStr : Value) (operand numOperands : nat)
    (elems : list Value) (pid : PidArray) (indices : list (list Value))
    (dimWidths : list Z) (hex : bool) : M unit :=
  match elems with
  | [] => fail                                   (* assert(!elems.empty()) *)
  | _ :: _ =>
    if negb (Nat.eqb (List.length elems) (List.length indices)) then fail
    else
      match indices with
      | [] => fail
      | front :: _ =>
        if negb (Nat.eqb (List.length dimWidths) (List.length front))
        then fail
        else elemLoop prefixStr operand numOperands pid indices dimWidths
                      hex elems 0 None
      end
  end.

(** *** [matchAndRewrite] *)

(** Lines 61-67: one [push_back] per dimension of the shape. *)
Fixpoint dimWidthsLoop (shape : list Z) (dimWidths : list Z) : list Z :=
  match shape with
  | [] => dimWidths
  | dim :: shape' =>
    if (0 <? dim)%Z
    then dimWidthsLoop shape' (dimWidths ++ [ceil_log10 dim])
    else dimWidthsLoop shape' (dimWidths ++ [0%Z])
  end.

(** Lines 46-78: the body of the loop over the operands. *)
Definition printOperand (prefixStr : Value) (i numOperands : nat)
    (pid : PidArray) (hex : bool) (o : Operand) : M unit :=
  let elems := unpackLLElements o in
  ' (indices, dimWidths) <-
    match operandType o with
    | RankedTensorType shape => ret (emitIndices o, dimWidthsLoop shape [])
    | ScalarType =>
      if Nat.eqb (List.length elems) 1 then ret ([[]], [])
      else fail                                  (* assert(elems.size() == 1) *)
    end ;;
  match elems with
  | [] => ret tt
  | _ :: _ =>
    printTensor prefixStr i numOperands elems pid indices dimWidths hex
  end.

(** Line 45: the loop over the operands; [operands] is the part still
    to visit and [i] the position of its head. *)
Fixpoint operandLoop (prefixStr : Value) (numOperands : nat)
    (pid : PidArray) (hex : bool) (operands : list Operand) (i : nat)
  : M unit :=
  match operands with
  | [] => ret tt
  | o :: operands' =>
    printOperand prefixStr i numOperands pid hex o ;;
    operandLoop prefixStr numOperands pid hex operands' (S i)
  end.

Definition matchAndRewrite (op : PrintOp) : M LogicalResult :=
  prefixStr <- addStringToModule (getPrefix op) ;;
  let pid : PidArray := (llGetPid 0, llGetPid 1, llGetPid 2) in
  let '(pid0, pid1, pid2) := pid in
  (if Nat.eqb (List.length (getOperands op)) 0 then
     s0 <- lift (getFormatSubstr pid0 false None) ;;
     s1 <- lift (getFormatSubstr pid1 false None) ;;
     s2 <- lift (getFormatSubstr pid2 false None) ;;
     let formatStr :=
       ((((("pid (" ++ s0) ++ ", ") ++ s1) ++ ", ") ++ s2) ++ ")%s" in
     llPrintf formatStr [pid0; pid1; pid2; prefixStr] ;;
     ret tt
   else
     operandLoop prefixStr (List.length (getOperands op)) pid (getHex op)
                 (getOperands op) 0) ;;
  eraseOp ;;
  ret success.

End PrintOpConversion.

(** ** Vocabulary of the properties *)

Definition maxAllowedRank : nat := 27.

(** The specifiers of the three program ids, comma separated. *)
Definition pidSpecs (pid : PidArray) : option string :=
  let '(x, y, z) := pid in
  match getFormatSubstr x false None,
        getFormatSubstr y false None,
        getFormatSubstr z false None with
  | Some sx, Some sy, Some sz => Some (sx ++ ", " ++ sy ++ ", " ++ sz)
  | _, _, _ => None
  end.

(** The specifiers of the components of [index], the head of which is
    at position [dim], each padded to the width of its dimension. *)
Fixpoint indexSpecs (dimWidths : list Z) (index : list Value) (dim : nat)
  : option (list string) :=
  match index with
  | [] => Some []
  | v :: index' =>
    match nth_error dimWidths dim with
    | None => None
    | Some w =>
      match getFormatSubstr v false (Some w) with
      | None => None
      | Some sub =>
        match indexSpecs dimWidths index' (S dim) with
        | None => None
        | Some subs => Some (sub :: subs)
        end
      end
    end
  end.

(** What the loop over an index appends for the specifiers [subs], the
    first of which belongs to position [dim]. *)
Fixpoint indexText (dim : nat) (subs : list string) : string :=
  match subs with
  | [] => ""
  | sub :: subs' =>
    (if Nat.eqb dim 0 then "" else ", ") ++ sub ++ indexText (S dim) subs'
  end.

Definition truncationMarker : string := "... (truncated)".

(** What follows the specifiers of an index of [n] components that
    starts at position 0. *)
Definition truncationTail (cutoff n : nat) : string :=
  if (cutoff <? n)%nat
  then (if Nat.eqb cutoff 0 then "" else ", ") ++ truncationMarker
  else "".

Definition operandTag (operand : nat) : string :=
  "(operand " ++ Str.of_unsigned (N.of_nat operand) ++ ") ".

(** The line of one element: [pids] the program-id specifiers, [subs]
    the specifiers of the index components that are printed, [n] the
    number of components of the index, [sub] the specifier of the
    element. *)
Definition lineText (pids : string) (subs : list string) (n : nat)
    (operand numOperands : nat) (sub : string) : string :=
  "pid (" ++ pids ++ ") "
  ++ "idx (" ++ String.concat ", " subs ++ truncationTail maxAllowedRank n
  ++ ")" ++ "%s"
  ++ (if (1 <? numOperands)%nat then operandTag operand else "")
  ++ sub.

(** The text of the format string a call refers to. *)
Definition formatText (rw : Rewriter) (c : PrintfCall) : option string :=
  match callFormat c with
  | GlobalString slot => nth_error (globals rw) slot
  | SSAValue _ _ => None
  end.

(** The calls emitted between two states of the rewriter. *)
Definition newCalls (before after : Rewriter) : list PrintfCall :=
  skipn (List.length (calls before)) (calls after).

Definition newGlobals (before after : Rewriter) : list string :=
  skipn (List.length (globals before)) (globals after).

(** *** The run of a request as a plan

    What [printTensor] emits is determined by the lines it builds; the
    rewriter only records them. A [Line] is what one element
    contributes. The plans below are closed forms: [Tensor.printOperand_eq],
    [Request.operandLoop_eq] and [Request.matchAndRewrite_operands]
    prove that the functions above compute exactly them. *)

Record Line := {
  lineFormat : string;
  lineCoords : list Value;
  lineElem : Value
}.

Definition lineArgs (prefixStr : Value) (pid : PidArray) (l : Line)
  : list Value :=
  (pidValues pid ++ lineCoords l ++ [prefixStr; lineElem l])%list.

Definition planLine (operand numOperands : nat) (elem : Value)
    (pid : PidArray) (index : list Value) (dimWidths : list Z) (hex : bool)
  : option Line :=
  match pidSpecs pid,
        indexSpecs dimWidths (firstn maxAllowedRank index) 0,
        getFormatSubstr elem hex None with
  | Some pids, Some subs, Some sub =>
    Some {| lineFormat :=
              lineText pids subs (List.length index) operand numOperands sub;
            lineCoords := firstn maxAllowedRank index;
            lineElem := elem |}
  | _, _, _ => None
  end.

Fixpoint planElems (operand numOperands : nat) (pid : PidArray)
    (indices : list (list Value)) (dimWidths : list Z) (hex : bool)
    (elems : list Value) (i : nat) : option (list Line) :=
  match elems with
  | [] => Some []
  | elem :: elems' =>
    match nth_error indices i with
    | None => None
    | Some index =>
      match planLine operand numOperands elem pid index dimWidths hex with
      | None => None
      | Some l =>
        match planElems operand numOperands pid indices dimWidths hex
                        elems' (S i) with
        | None => None
        | Some ls => Some (l :: ls)
        end
      end
    end
  end.

(** The contract [printTensor] asserts on entry. *)
Definition tensorContract (elems : list Value) (indices : list (list Value))
    (dimWidths : list Z) : bool :=
  match elems, indices with
  | _ :: _, front :: _ =>
    Nat.eqb (List.length elems) (List.length indices)
    && Nat.eqb (List.length dimWidths) (List.length front)
  | _, _ => false
  end.

Definition planTensor (operand numOperands : nat) (elems : list Value)
    (pid : PidArray) (indices : list (list Value)) (dimWidths : list Z)
    (hex : bool) : option (list Line) :=
  if tensorContract elems indices dimWidths
  then planElems operand numOperands pid indices dimWidths hex elems 0
  else None.

(** The indices and widths [matchAndRewrite] hands to [printTensor]. *)
Definition operandIndices (o : Operand) : list (list Value) :=
  match operandType o with
  | RankedTensorType _ => emitIndices o
  | ScalarType => [[]]
  end.

Definition operandDimWidths (ceil_log10 : Z -> Z) (o : Operand) : list Z :=
  match operandType o with
  | RankedTensorType shape => dimWidthsLoop ceil_log10 shape []
  | ScalarType => []
  end.

Definition planOperand (ceil_log10 : Z -> Z) (i numOperands : nat)
    (pid : PidArray) (hex : bool) (o : Operand) : option (list Line) :=
  match operandType o, unpackLLElements o with
  | RankedTensorType _, [] => Some []
  | ScalarType, [] => None
  | ScalarType, _ :: _ :: _ => None
  | _, elems =>
    planTensor i numOperands elems pid (operandIndices o)
               (operandDimWidths ceil_log10 o) hex
  end.

Definition mkCall (msg : Value) (args : list Value) : PrintfCall :=
  {| callFormat := msg; callArgs := args |}.

(** The state after the lines of one operand have been emitted: the
    text of the first line is registered, every line is a call against
    it. *)
Definition emitOperand (prefixStr : Value) (pid : PidArray)
    (ls : list Line) (rw : Rewriter) : Rewriter :=
  match ls with
  | [] => rw
  | l :: _ =>
    {| globals := globals rw ++ [lineFormat l];
       calls := calls rw
                ++ map (fun l' =>
                          mkCall (GlobalString (List.length (globals rw)))
                                 (lineArgs prefixStr pid l')) ls;
       erased := erased rw |}
  end.

Fixpoint planOperands (ceil_log10 : Z -> Z) (numOperands : nat)
    (pid : PidArray) (hex : bool) (operands : list Operand) (i : nat)
  : option (list (list Line)) :=
  match operands with
  | [] => Some []
  | o :: operands' =>
    match planOperand ceil_log10 i numOperands pid hex o with
    | None => None
    | Some ls =>
      match planOperands ceil_log10 numOperands pid hex operands' (S i) with
      | None => None
      | Some lss => Some (ls :: lss)
      end
    end
  end.

Definition emitOperands (prefixStr : Value) (pid : PidArray)
    (lss : list (list Line)) (rw : Rewriter) : Rewriter :=
  fold_left (fun rw ls => emitOperand prefixStr pid ls rw) lss rw.

(** The format texts of the calls of a list of operand plans: every
    line of an operand is emitted against the text of its first line. *)
Definition planTexts (lss : list (list Line)) : list (option string) :=
  flat_map (fun ls => map (fun _ => option_map lineFormat (hd_error ls)) ls)
           lss.

(** The arguments of a line before and after the prefix string. *)
Definition lineSides (pid : PidArray) (l : Line) : list Value * list Value :=
  ((pidValues pid ++ lineCoords l)%list, [lineElem l]).

(** The calls of a request, as far as they do not depend on the state
    of the rewriter: the text of each and its arguments on either side
    of the prefix string. *)
Definition requestCalls (ceil_log10 : Z -> Z) (llGetPid : nat -> Value)
    (op : PrintOp)
  : option (list (option string) * list (list Value * list Value)) :=
  let pid : PidArray := (llGetPid 0, llGetPid 1, llGetPid 2) in
  match getOperands op with
  | [] =>
    match pidSpecs pid with
    | Some t => Some ([Some ("pid (" ++ t ++ ")%s")], [(pidValues pid, [])])
    | None => None
    end
  | _ :: _ =>
    match planOperands ceil_log10 (List.length (getOperands op)) pid
                       (getHex op) (getOperands op) 0 with
    | Some lss => Some (planTexts lss, map (lineSides pid) (List.concat lss))
    | None => None
    end
  end.

(** *** Observing a run of [matchAndRewrite] *)

(** The state of the rewriter when the loop over the operands reaches
    operand [k] (for [k] the number of operands: when it ends). *)
Definition stateAtOperand (ceil_log10 : Z -> Z) (llGetPid : nat -> Value)
    (op : PrintOp) (rw : Rewriter) (k : nat) : option Rewriter :=
  match (prefixStr <- addStringToModule (getPrefix op) ;;
         operandLoop ceil_log10 prefixStr (List.length (getOperands op))
                     (llGetPid 0, llGetPid 1, llGetPid 2) (getHex op)
                     (firstn k (getOperands op)) 0) rw with
  | Some (_, rw') => Some rw'
  | None => None
  end.

(** A call as the device sees it: the text of its format string and
    its arguments. *)
Definition Emission : Type := option string * list Value.

Definition emission (rw : Rewriter) (c : PrintfCall) : Emission :=
  (formatText rw c, callArgs c).

(** The calls emitted while operand [k] is processed. *)
Definition emittedFor (ceil_log10 : Z -> Z) (llGetPid : nat -> Value)
    (op : PrintOp) (rw : Rewriter) (k : nat) : option (list Emission) :=
  match stateAtOperand ceil_log10 llGetPid op rw k,
        stateAtOperand ceil_log10 llGetPid op rw (S k) with
  | Some before, Some after =>
    if (k <? List.length (getOperands op))%nat
    then Some (map (emission after) (newCalls before after))
    else None
  | _, _ => None
  end.

(** The handle of the prefix string of a request lowered from [rw]. *)
Definition prefixHandle (rw : Rewriter) : Value :=
  GlobalString (List.length (globals rw)).

(** The state once the prefix string has been interned. *)
Definition withString (str : string) (rw : Rewriter) : Rewriter :=
  {| globals := globals rw ++ [str];
     calls := calls rw;
     erased := erased rw |}.

Definition setErased (rw : Rewriter) : Rewriter :=
  {| globals := globals rw; calls := calls rw; erased := true |}.

(** [after] keeps everything [before] holds: strings and calls are only
    ever appended. *)
Definition extends (before after : Rewriter) : Prop :=
  exists gs cs,
    globals after = (globals before ++ gs)%list
    /\ calls after = (calls before ++ cs)%list.

(** *** The resolver as the specification words it *)

Definition widthText (width : option Z) : string :=
  match width with
  | Some w => Str.of_int w
  | None => ""
  end.

(** The conversion letters of a decimal specifier, by type: [f] for
    16-, 32- and 64-bit floats, [lli]/[i] for 64-bit/narrower signed
    integers, [llu]/[u] for 64-bit/narrower unsigned or signless
    integers. Other types are left open. *)
Definition specLetters (t : MType) : option string :=
  match t with
  | FloatType k =>
    if existsb (N.eqb (floatWidth k)) [16; 32; 64]%N then Some "f" else None
  | IntegerType Signed w =>
    if (w =? 64)%N then Some "lli"
    else if (w <? 64)%N then Some "i" else None
  | IntegerType _ w =>
    if (w =? 64)%N then Some "llu"
    else if (w <? 64)%N then Some "u" else None
  | _ => None
  end.

(** *** Requests that honour the contract of the lowering *)

Definition printable (hex : bool) (v : Value) : Prop :=
  getFormatSubstr v hex None <> None.

(** A scalar operand has one element; a ranked operand has one index
    per element, one printable component per dimension in each; the
    elements are printable in the display mode of the request. *)
Definition wellFormedOperand (hex : bool) (o : Operand) : Prop :=
  match operandType o with
  | RankedTensorType shape =>
    List.length (unpackLLElements o) = List.length (emitIndices o)
    /\ Forall (fun index =>
                 List.length index = List.length shape
                 /\ Forall (printable false) index)
              (emitIndices o)
  | ScalarType => List.length (unpackLLElements o) = 1
  end
  /\ Forall (printable hex) (unpackLLElements o).

Definition wellFormed (llGetPid : nat -> Value) (op : PrintOp) : Prop :=
  printable false (llGetPid 0)
  /\ printable false (llGetPid 1)
  /\ printable false (llGetPid 2)
  /\ Forall (wellFormedOperand (getHex op)) (getOperands op).

(** ** Sample requests *)

Module Sample.

Definition rw0 : Rewriter := {| globals := []; calls := []; erased := false |}.

Definition i32 : MType := IntegerType Signless 32.
Definition f32 : MType := FloatType F32.

Definition llGetPid (axis : nat) : Value := SSAValue i32 (100 + axis).

(** A print of the bare prefix. *)
Definition hello : PrintOp :=
  {| getPrefix := "hello"; getOperands := []; getHex := false |}.

(** A 4x4 tensor of which the thread owns the elements at (0,0) and
    (1,2). *)
Definition tensor4x4 : Operand :=
  {| operandType := RankedTensorType [4; 4]%Z;
     unpackLLElements := [SSAValue f32 0; SSAValue f32 1];
     emitIndices := [[SSAValue i32 10; SSAValue i32 11];
                     [SSAValue i32 12; SSAValue i32 13]] |}.

(** A tensor of which the thread owns nothing. *)
Definition notOwned : Operand :=
  {| operandType := RankedTensorType [4; 4]%Z;
     unpackLLElements := [];
     emitIndices := [] |}.

(** A tensor of rank 30 with one owned element. *)
Definition rank30 : Operand :=
  {| operandType := RankedTensorType (repeat 2%Z 30);
     unpackLLElements := [SSAValue f32 0];
     emitIndices := [map (SSAValue i32) (seq 10 30)] |}.

Definition printOne : PrintOp :=
  {| getPrefix := " x: "; getOperands := [tensor4x4]; getHex := false |}.

Definition printTwo : PrintOp :=
  {| getPrefix := " x: "; getOperands := [notOwned; tensor4x4];
     getHex := true |}.

Definition printRank30 : PrintOp :=
  {| getPrefix := " x: "; getOperands := [rank30]; getHex := false |}.

(** A scalar operand. *)
Definition scalar : Operand :=
  {| operandType := ScalarType;
     unpackLLElements := [SSAValue (IntegerType Signed 64) 5];
     emitIndices := [] |}.

(** A scalar operand that unpacks to two elements. *)
Definition scalarOfTwo : Operand :=
  {| operandType := ScalarType;
     unpackLLElements := [SSAValue f32 0; SSAValue f32 1];
     emitIndices := [] |}.

(** A tensor of rank 27, the largest rank printed in full. *)
Definition rank27 : Operand :=
  {| operandType := RankedTensorType (repeat 2%Z 27);
     unpackLLElements := [SSAValue f32 0];
     emitIndices := [map (SSAValue i32) (seq 10 27)] |}.

(** A 4x4 tensor whose index tuples have three components. *)
Definition wrongRank : Operand :=
  {| operandType := RankedTensorType [4; 4]%Z;
     unpackLLElements := [SSAValue f32 0];
     emitIndices := [[SSAValue i32 10; SSAValue i32 11; SSAValue i32 12]] |}.

(** A tensor of a type that cannot be printed. *)
Definition unprintable : Operand :=
  {| operandType := RankedTensorType [4]%Z;
     unpackLLElements := [SSAValue OtherType 0];
     emitIndices := [[SSAValue i32 10]] |}.

Definition printScalar : PrintOp :=
  {| getPrefix := " s: "; getOperands := [scalar]; getHex := false |}.

Definition printRank27 : PrintOp :=
  {| getPrefix := " x: "; getOperands := [rank27]; getHex := false |}.

Definition printThree : PrintOp :=
  {| getPrefix := " x: "; getOperands := [tensor4x4; notOwned; scalar];
     getHex := false |}.



Definition finalState (op : PrintOp) : Rewriter :=
  match matchAndRewrite exact_ceil_log10 llGetPid op rw0 with
  | Some (_, rw') => rw'
  | None => rw0
  end.

End Sample.

(** ** Strings: associativity and occurrences *)

Module StrFacts.

Lemma append_assoc (a b c : string) : (a ++ b) ++ c = a ++ (b ++ c).
Proof. induction a as [|x a IH]; simpl; [reflexivity | now rewrite IH]. Qed.

Lemma append_nil_r (a : string) : a ++ "" = a.
Proof. induction a as [|x a IH]; simpl; [reflexivity | now rewrite IH]. Qed.

Lemma occurs_append c (a b : string) :
  Str.occurs c (a ++ b) = Str.occurs c a || Str.occurs c b.
Proof.
  induction a as [|x a IH]; simpl; [reflexivity|].
  now rewrite IH, orb_assoc.
Qed.

Lemma count_append c (a b : string) :
  Str.count c (a ++ b) = Str.count c a + Str.count c b.
Proof.
  induction a as [|x a IH]; simpl; [reflexivity|].
  rewrite IH. lia.
Qed.

Lemma contains_occurs c sub s :
  Str.contains sub s -> Str.occurs c sub = true -> Str.occurs c s = true.
Proof.
  intros (pre & post & ->) H.
  rewrite !occurs_append, H. now rewrite orb_true_r.
Qed.


Lemma contains_append_l a sub s :
  Str.contains sub s -> Str.contains sub (a ++ s).
Proof.
  intros (pre & post & ->). exists (a ++ pre), post.
  now rewrite append_assoc.
Qed.

Lemma eqb_decimal a c :
  Str.isDecimalChar a = true -> Str.isDecimalChar c = false ->
  Ascii.eqb a c = false.
Proof. intros Ha Hc. apply Ascii.eqb_neq. intros <-. congruence. Qed.

Lemma occurs_uint c d :
  Str.isDecimalChar c = false ->
  Str.occurs c (NilEmpty.string_of_uint d) = false.
Proof.
  intros Hc.
  induction d; cbn [NilEmpty.string_of_uint Str.occurs]; try reflexivity;
    rewrite IHd, orb_false_r; now apply eqb_decimal.
Qed.

Lemma occurs_nilzero_uint c d :
  Str.isDecimalChar c = false ->
  Str.occurs c (NilZero.string_of_uint d) = false.
Proof.
  intros Hc. unfold NilZero.string_of_uint.
  destruct d eqn:E; try (rewrite <- E; now apply occurs_uint).
  cbn [Str.occurs]. rewrite orb_false_r. now apply eqb_decimal.
Qed.

Lemma occurs_of_unsigned c n :
  Str.isDecimalChar c = false -> Str.occurs c (Str.of_unsigned n) = false.
Proof. intros Hc. now apply occurs_nilzero_uint. Qed.

Lemma occurs_of_int c z :
  Str.isDecimalChar c = false -> Str.occurs c (Str.of_int z) = false.
Proof.
  intros Hc. unfold Str.of_int, NilZero.string_of_int.
  destruct (Z.to_int z); [now apply occurs_nilzero_uint|].
  cbn [Str.occurs]. rewrite occurs_nilzero_uint, orb_false_r by assumption.
  now apply eqb_decimal.
Qed.

Lemma count_no_occurs c s : Str.occurs c s = false -> Str.count c s = 0.
Proof.
  induction s as [|x s IH]; cbn [Str.occurs Str.count]; [reflexivity|].
  intros H. apply orb_false_iff in H as [-> H]. now rewrite IH.
Qed.

Lemma count_of_unsigned c n :
  Str.isDecimalChar c = false -> Str.count c (Str.of_unsigned n) = 0.
Proof. intros Hc. now apply count_no_occurs, occurs_of_unsigned. Qed.

Lemma count_of_int c z :
  Str.isDecimalChar c = false -> Str.count c (Str.of_int z) = 0.
Proof. intros Hc. now apply count_no_occurs, occurs_of_int. Qed.

End StrFacts.

(** ** The specifier resolver: case analysis *)

Module Resolver.

Lemma pointer v hex width :
  getType v = LLVMPointerType -> getFormatSubstr v hex width = Some "%p".
Proof. intros H. unfold getFormatSubstr. now rewrite H. Qed.

Lemma hex_form v bits width :
  getIntOrFloatBitWidth (getType v) = Some bits ->
  getFormatSubstr v true width
  = Some ("0x%0" ++ Str.of_unsigned (bits / 4)
          ++ (if (32 <? bits)%N then "ll" else "") ++ "x").
Proof.
  intros H. unfold getFormatSubstr.
  destruct (getType v); try discriminate; cbn in H |- *;
    injection H as <-;
    match goal with |- context [(32 <? ?b)%N] => destruct (32 <? b)%N end;
    cbn; now rewrite ?StrFacts.append_assoc.
Qed.

(** Whether a value can be printed depends on its type and on the
    display mode, not on the field width. *)
Lemma width_irrelevant v hex w w' :
  getFormatSubstr v hex w = None -> getFormatSubstr v hex w' = None.
Proof.
  unfold getFormatSubstr.
  destruct (getType v) as [|k|sg bits|]; cbn; try discriminate; try easy.
  - destruct hex; [discriminate|]. destruct k; cbn; try discriminate; easy.
  - destruct hex; [discriminate|].
    destruct sg; cbn; destruct (bits =? 64)%N; discriminate.
Qed.


Ltac resolve_cases :=
  unfold getFormatSubstr;
  match goal with
  | |- context [getType ?v] =>
    destruct (getType v) as [|[]|[] ?bits|]; cbn
  end;
  repeat match goal with
         | |- context [if ?b then _ else _] => destruct b
         | |- context [match ?w with Some _ => _ | None => _ end] =>
           destruct w
         end;
  intros H; try discriminate H; injection H as <-.

Lemma no_o v hex width s :
  getFormatSubstr v hex width = Some s -> Str.occurs "o" s = false.
Proof.
  resolve_cases;
    repeat (cbn; rewrite ?StrFacts.occurs_append, ?StrFacts.occurs_of_int,
                         ?StrFacts.occurs_of_unsigned by reflexivity);
    reflexivity.
Qed.

Lemma one_percent v hex width s :
  getFormatSubstr v hex width = Some s -> Str.count "%" s = 1.
Proof.
  resolve_cases;
    repeat (cbn; rewrite ?StrFacts.count_append, ?StrFacts.count_of_int,
                         ?StrFacts.count_of_unsigned by reflexivity);
    reflexivity.
Qed.

(** The specifier of a value is a function of its type. *)
Lemma type_only v v' hex width :
  getType v = getType v' ->
  getFormatSubstr v hex width = getFormatSubstr v' hex width.
Proof. unfold getFormatSubstr. now intros ->. Qed.

End Resolver.

(** ** The loops of [printTensor] in closed form *)

Module Loops.

Import StrFacts.


Lemma indexText_succ_any dim dim' subs :
  indexText (S dim) subs = indexText (S dim') subs.
Proof.
  revert dim dim'. induction subs as [|sub subs IH]; intros; [reflexivity|].
  cbn [indexText Nat.eqb]. now rewrite (IH (S dim) (S dim')).
Qed.

Lemma indexText_concat subs : indexText 0 subs = String.concat ", " subs.
Proof.
  destruct subs as [|sub subs]; [reflexivity|].
  cbn [indexText Nat.eqb String.append].
  revert sub. induction subs as [|sub' subs IH]; intros sub.
  - cbn. now rewrite append_nil_r.
  - cbn [String.concat indexText Nat.eqb]. f_equal. f_equal.
    rewrite (indexText_succ_any 1 0). apply IH.
Qed.

Lemma pidLoop_three x y z os ops :
  pidLoop [x; y; z] 0 os ops
  = match pidSpecs (x, y, z) with
    | Some t => Some (os ++ t, (ops ++ [x; y; z])%list)
    | None => None
    end.
Proof.
  unfold pidSpecs. cbn [pidLoop Nat.eqb].
  destruct (getFormatSubstr x false None); [|reflexivity].
  destruct (getFormatSubstr y false None); [|reflexivity].
  destruct (getFormatSubstr z false None); [|reflexivity].
  rewrite !append_assoc, <- !app_assoc. reflexivity.
Qed.

Lemma indexLoop_eq dimWidths m index :
  forall dim os ops,
    dim <= m ->
    indexLoop dimWidths (Z.of_nat m) index dim os ops
    = match indexSpecs dimWidths (firstn (m - dim) index) dim with
      | None => None
      | Some subs =>
        Some (os ++ indexText dim subs
                 ++ (if (m - dim <? List.length index)%nat
                     then (if Nat.eqb m 0 then "" else ", ")
                            ++ truncationMarker
                     else ""),
              (ops ++ firstn (m - dim) index)%list)
      end.
Proof.
  induction index as [|v index IH]; intros dim os ops Hle.
  - rewrite firstn_nil. cbn. now rewrite append_nil_r, app_nil_r.
  - cbn [indexLoop]. destruct (Z.of_nat dim =? Z.of_nat m)%Z eqn:E.
    + apply Z.eqb_eq in E. apply Nat2Z.inj in E. subst m.
      rewrite Nat.sub_diag. cbn [firstn indexSpecs indexText String.append].
      cbn [List.length]. replace (0 <? S (List.length index))%nat with true
        by (symmetry; apply Nat.ltb_lt; lia).
      rewrite app_nil_r.
      destruct (Nat.eqb dim 0); [reflexivity|]. now rewrite append_assoc.
    + apply Z.eqb_neq in E.
      assert (Hlt : dim < m) by lia.
      replace (m - dim) with (S (m - S dim)) by lia.
      cbn [firstn indexSpecs].
      destruct (nth_error dimWidths dim) as [w|]; [|reflexivity].
      destruct (getFormatSubstr v false (Some w)) as [sub|]; [|reflexivity].
      rewrite IH by lia.
      destruct (indexSpecs dimWidths (firstn (m - S dim) index) (S dim))
        as [subs|]; [|reflexivity].
      cbn [indexText List.length].
      replace (S (m - S dim) <? S (List.length index))%nat
        with (m - S dim <? List.length index)%nat
        by (destruct (Nat.ltb_spec (m - S dim) (List.length index));
            symmetry; [apply Nat.ltb_lt | apply Nat.ltb_ge]; lia).
      f_equal. f_equal.
      * destruct (Nat.eqb dim 0); cbn [String.append];
          now rewrite !append_assoc.
      * now rewrite <- app_assoc.
Qed.

Lemma formatLine_eq prefixStr operand numOperands elem pid index dimWidths hex :
  formatLine prefixStr operand numOperands elem pid index dimWidths hex
  = match pidSpecs pid,
          indexSpecs dimWidths (firstn maxAllowedRank index) 0,
          getFormatSubstr elem hex None with
    | Some pids, Some subs, Some sub =>
      Some (lineText pids subs (List.length index) operand numOperands sub,
            (pidValues pid ++ firstn maxAllowedRank index
               ++ [prefixStr; elem])%list)
    | _, _, _ => None
    end.
Proof.
  unfold formatLine. destruct pid as [[x y] z]. cbn [pidValues].
  rewrite pidLoop_three.
  destruct (pidSpecs (x, y, z)) as [pids|]; [|reflexivity].
  change ([] ++ [x; y; z])%list with [x; y; z].
  change (kMaxPrintfOperands - Z.of_nat (List.length [x; y; z]) - 2)%Z
    with (Z.of_nat maxAllowedRank).
  rewrite indexLoop_eq by apply Nat.le_0_l. rewrite Nat.sub_0_r.
  destruct (indexSpecs dimWidths (firstn maxAllowedRank index) 0)
    as [subs|]; [|reflexivity].
  destruct (getFormatSubstr elem hex None) as [sub|]; [|reflexivity].
  f_equal. f_equal.
  - unfold lineText, truncationTail, operandTag.
    rewrite indexText_concat.
    destruct (1 <? numOperands)%nat; rewrite !append_assoc; reflexivity.
  - rewrite <- !app_assoc. reflexivity.
Qed.

Lemma indexSpecs_Forall2 dimWidths :
  forall index dim subs,
    indexSpecs dimWidths index dim = Some subs ->
    Forall2 (fun v sub =>
               exists w, In w dimWidths
                         /\ getFormatSubstr v false (Some w) = Some sub)
            index subs.
Proof.
  induction index as [|v index IH]; intros dim subs H; cbn in H.
  - injection H as <-. constructor.
  - destruct (nth_error dimWidths dim) as [w|] eqn:Ew; [|discriminate].
    destruct (getFormatSubstr v false (Some w)) as [sub|] eqn:Es;
      [|discriminate].
    destruct (indexSpecs dimWidths index (S dim)) as [subs'|] eqn:E;
      [|discriminate].
    injection H as <-. constructor; [|eauto].
    exists w. split; [eapply nth_error_In; eassumption | assumption].
Qed.

Lemma indexSpecs_length dimWidths index dim subs :
  indexSpecs dimWidths index dim = Some subs ->
  List.length subs = List.length index.
Proof.
  intros H. symmetry. eapply Forall2_length, indexSpecs_Forall2, H.
Qed.

Lemma indexSpecs_one_percent dimWidths index dim subs :
  indexSpecs dimWidths index dim = Some subs ->
  Forall (fun sub => Str.count "%" sub = 1) subs.
Proof.
  intros H. apply indexSpecs_Forall2 in H.
  induction H as [|v sub index subs (w & _ & Hw) _ IH]; constructor;
    [eapply Resolver.one_percent; eassumption | assumption].
Qed.

Lemma count_concat c sep subs :
  Str.count c sep = 0 ->
  Forall (fun sub => Str.count c sub = 1) subs ->
  Str.count c (String.concat sep subs) = List.length subs.
Proof.
  intros Hsep H. induction H as [|sub subs Hsub H IH]; [reflexivity|].
  cbn [String.concat List.length]. destruct subs as [|sub' subs].
  - assumption.
  - rewrite !count_append, Hsub, Hsep, IH. reflexivity.
Qed.

Lemma pidSpecs_percent pid t : pidSpecs pid = Some t -> Str.count "%" t = 3.
Proof.
  destruct pid as [[x y] z]. unfold pidSpecs.
  destruct (getFormatSubstr x false None) as [sx|] eqn:Ex; [|discriminate].
  destruct (getFormatSubstr y false None) as [sy|] eqn:Ey; [|discriminate].
  destruct (getFormatSubstr z false None) as [sz|] eqn:Ez; [|discriminate].
  intros H. injection H as <-. repeat (rewrite ?count_append; cbn).
  rewrite (Resolver.one_percent _ _ _ _ Ex), (Resolver.one_percent _ _ _ _ Ey),
    (Resolver.one_percent _ _ _ _ Ez). reflexivity.
Qed.

Lemma operandTag_percent k : Str.count "%" (operandTag k) = 0.
Proof.
  unfold operandTag. rewrite !count_append, count_of_unsigned by reflexivity.
  reflexivity.
Qed.

Lemma truncationTail_percent cutoff n :
  Str.count "%" (truncationTail cutoff n) = 0.
Proof.
  unfold truncationTail. destruct (cutoff <? n)%nat; [|reflexivity].
  now destruct (Nat.eqb cutoff 0).
Qed.

(** A line holds one conversion per program id, one per printed index
    component, [%s] and the conversion of the element. *)
Lemma lineText_percent pid pidsText dimWidths index dim subs n operand
      numOperands v hex width sub :
  pidSpecs pid = Some pidsText ->
  indexSpecs dimWidths index dim = Some subs ->
  getFormatSubstr v hex width = Some sub ->
  Str.count "%" (lineText pidsText subs n operand numOperands sub)
  = 3 + List.length subs + 2.
Proof.
  intros Hp Hi Hs. unfold lineText. rewrite !count_append.
  rewrite (pidSpecs_percent _ _ Hp), truncationTail_percent.
  rewrite (count_concat "%" ", " subs eq_refl
             (indexSpecs_one_percent _ _ _ _ Hi)).
  rewrite (Resolver.one_percent _ _ _ _ Hs).
  destruct (1 <? numOperands)%nat; rewrite ?operandTag_percent; cbn; lia.
Qed.

Lemma occurs_concat c sep subs :
  Str.occurs c sep = false ->
  Forall (fun sub => Str.occurs c sub = false) subs ->
  Str.occurs c (String.concat sep subs) = false.
Proof.
  intros Hsep H. induction H as [|sub subs Hsub H IH]; [reflexivity|].
  cbn [String.concat]. destruct subs as [|sub' subs]; [assumption|].
  now rewrite !occurs_append, Hsub, Hsep, IH.
Qed.

Lemma indexSpecs_no_o dimWidths index dim subs :
  indexSpecs dimWidths index dim = Some subs ->
  Forall (fun sub => Str.occurs "o" sub = false) subs.
Proof.
  intros H. apply indexSpecs_Forall2 in H.
  induction H as [|v sub index subs (w & _ & Hw) _ IH]; constructor;
    [eapply Resolver.no_o; eassumption | assumption].
Qed.

Lemma pidSpecs_no_o pid t : pidSpecs pid = Some t -> Str.occurs "o" t = false.
Proof.
  destruct pid as [[x y] z]. unfold pidSpecs.
  destruct (getFormatSubstr x false None) as [sx|] eqn:Ex; [|discriminate].
  destruct (getFormatSubstr y false None) as [sy|] eqn:Ey; [|discriminate].
  destruct (getFormatSubstr z false None) as [sz|] eqn:Ez; [|discriminate].
  intros H. injection H as <-. repeat (rewrite ?occurs_append; cbn).
  now rewrite (Resolver.no_o _ _ _ _ Ex), (Resolver.no_o _ _ _ _ Ey),
    (Resolver.no_o _ _ _ _ Ez).
Qed.

(** Without the operand tag a line holds no letter [o]. *)
Lemma lineText_no_o pid pidsText dimWidths index dim subs n operand v hex
      width sub :
  pidSpecs pid = Some pidsText ->
  indexSpecs dimWidths index dim = Some subs ->
  getFormatSubstr v hex width = Some sub ->
  Str.occurs "o" (lineText pidsText subs n operand 1 sub) = false.
Proof.
  intros Hp Hi Hs. unfold lineText. cbn [Nat.ltb Nat.leb].
  rewrite !occurs_append.
  rewrite (pidSpecs_no_o _ _ Hp), (Resolver.no_o _ _ _ _ Hs).
  rewrite (occurs_concat "o" ", " subs eq_refl (indexSpecs_no_o _ _ _ _ Hi)).
  unfold truncationTail.
  destruct (maxAllowedRank <? n)%nat; reflexivity.
Qed.

Lemma operandTag_has_o k : Str.occurs "o" (operandTag k) = true.
Proof. reflexivity. Qed.

Lemma indexSpecs_types dimWidths :
  forall index index' dim,
    map getType index = map getType index' ->
    indexSpecs dimWidths index dim = indexSpecs dimWidths index' dim.
Proof.
  induction index as [|v index IH]; intros [|v' index'] dim H;
    try discriminate; [reflexivity|].
  cbn in H. injection H as Hv H. cbn [indexSpecs].
  destruct (nth_error dimWidths dim) as [w|]; [|reflexivity].
  rewrite (Resolver.type_only v v' false (Some w) Hv).
  now rewrite (IH index' (S dim) H).
Qed.

(** Lines built for elements of one type at indices of one type share
    their format string. *)
Lemma planLine_format_types operand numOperands pid dimWidths hex
      elem index l elem' index' l' :
  planLine operand numOperands elem pid index dimWidths hex = Some l ->
  planLine operand numOperands elem' pid index' dimWidths hex = Some l' ->
  getType elem = getType elem' ->
  map getType index = map getType index' ->
  lineFormat l = lineFormat l'.
Proof.
  unfold planLine. intros H H' He Hi.
  assert (Hlen : List.length index = List.length index')
    by (rewrite <- (length_map getType index), Hi; apply length_map).
  rewrite (indexSpecs_types dimWidths (firstn maxAllowedRank index')
             (firstn maxAllowedRank index) 0) in H'
    by (now rewrite <- !firstn_map, Hi).
  rewrite <- (Resolver.type_only elem elem' hex None He) in H'.
  destruct (pidSpecs pid); [|discriminate].
  destruct (indexSpecs dimWidths (firstn maxAllowedRank index) 0);
    [|discriminate].
  destruct (getFormatSubstr elem hex None); [|discriminate].
  injection H as <-. injection H' as <-. cbn. now rewrite Hlen.
Qed.

End Loops.

(** ** [printTensor] and [printOperand] in closed form *)

Module Tensor.

Import Loops.

Lemma formatLine_plan prefixStr operand numOperands elem pid index dimWidths
      hex :
  formatLine prefixStr operand numOperands elem pid index dimWidths hex
  = match planLine operand numOperands elem pid index dimWidths hex with
    | Some l => Some (lineFormat l, lineArgs prefixStr pid l)
    | None => None
    end.
Proof.
  rewrite formatLine_eq. unfold planLine.
  destruct (pidSpecs pid); [|reflexivity].
  destruct (indexSpecs dimWidths (firstn maxAllowedRank index) 0);
    [|reflexivity].
  destruct (getFormatSubstr elem hex None); reflexivity.
Qed.

Lemma rewriter_eq g g' c c' e e' :
  g = g' -> c = c' -> e = e' ->
  {| globals := g; calls := c; erased := e |}
  = {| globals := g'; calls := c'; erased := e' |}.
Proof. now intros -> -> ->. Qed.

Section ElemLoop.

Variables (prefixStr : Value) (operand numOperands : nat) (pid : PidArray).
Variables (indices : list (list Value)) (dimWidths : list Z) (hex : bool).

Lemma elemLoop_later (h : Value) :
  forall elems i rw,
    i <> 0 ->
    elemLoop prefixStr operand numOperands pid indices dimWidths hex
             elems i (Some h) rw
    = match planElems operand numOperands pid indices dimWidths hex
                      elems i with
      | None => None
      | Some ls =>
        Some (tt,
              {| globals := globals rw;
                 calls := calls rw
                          ++ map (fun l => mkCall h (lineArgs prefixStr pid l))
                                 ls;
                 erased := erased rw |})
      end.
Proof.
  induction elems as [|elem elems IH]; intros i rw Hi.
  - cbn. unfold ret. destruct rw; cbn. now rewrite app_nil_r.
  - cbn [elemLoop planElems]. unfold bind at 1.
    destruct (nth_error indices i) as [index|]; [|reflexivity].
    cbn [lift]. unfold ret at 1. unfold bind at 1.
    rewrite formatLine_plan.
    destruct (planLine operand numOperands elem pid index dimWidths hex)
      as [l|]; [|reflexivity].
    cbn [lift]. unfold ret at 1.
    destruct (Nat.eqb_spec i 0) as [->|_]; [contradiction|].
    unfold bind at 1. cbn [lift]. unfold ret at 1.
    unfold bind at 1. unfold llPrintfValue at 1.
    rewrite IH by discriminate.
    destruct (planElems operand numOperands pid indices dimWidths hex
                        elems (S i)) as [ls|]; [|reflexivity].
    cbn [globals calls erased map]. f_equal. f_equal.
    apply rewriter_eq; try reflexivity.
    now rewrite <- app_assoc.
Qed.

Lemma elemLoop_first elems rw :
  elemLoop prefixStr operand numOperands pid indices dimWidths hex
           elems 0 None rw
  = match planElems operand numOperands pid indices dimWidths hex
                    elems 0 with
    | None => None
    | Some ls => Some (tt, emitOperand prefixStr pid ls rw)
    end.
Proof.
  destruct elems as [|elem elems]; [reflexivity|].
  cbn [elemLoop planElems]. unfold bind at 1.
  destruct (nth_error indices 0) as [index|]; [|reflexivity].
  cbn [lift]. unfold ret at 1. unfold bind at 1.
  rewrite formatLine_plan.
  destruct (planLine operand numOperands elem pid index dimWidths hex)
    as [l|]; [|reflexivity].
  cbn [lift Nat.eqb]. unfold ret at 1.
  unfold bind at 1. unfold llPrintf, bind, addStringToModule, llPrintfValue.
  cbn [globals calls erased]. unfold ret at 1.
  rewrite elemLoop_later by discriminate.
  destruct (planElems operand numOperands pid indices dimWidths hex elems 1)
    as [ls|]; [|reflexivity].
  cbn [globals calls erased emitOperand map]. f_equal. f_equal.
  apply rewriter_eq; try reflexivity.
  now rewrite <- app_assoc.
Qed.

End ElemLoop.

Lemma printTensor_eq prefixStr operand numOperands elems pid indices
      dimWidths hex rw :
  printTensor prefixStr operand numOperands elems pid indices dimWidths hex rw
  = match planTensor operand numOperands elems pid indices dimWidths hex with
    | None => None
    | Some ls => Some (tt, emitOperand prefixStr pid ls rw)
    end.
Proof.
  unfold printTensor, planTensor, tensorContract.
  destruct elems as [|elem elems]; [reflexivity|].
  destruct (Nat.eqb (List.length (elem :: elems)) (List.length indices));
    cbn [negb andb]; [|destruct indices; reflexivity].
  destruct indices as [|front indices]; [reflexivity|].
  destruct (Nat.eqb (List.length dimWidths) (List.length front));
    cbn [negb]; [|reflexivity].
  apply elemLoop_first.
Qed.

Lemma printOperand_eq ceil_log10 prefixStr i numOperands pid hex o rw :
  printOperand ceil_log10 prefixStr i numOperands pid hex o rw
  = match planOperand ceil_log10 i numOperands pid hex o with
    | None => None
    | Some ls => Some (tt, emitOperand prefixStr pid ls rw)
    end.
Proof.
  unfold printOperand, planOperand, operandIndices, operandDimWidths.
  destruct (operandType o) as [shape|].
  - unfold bind, ret. destruct (unpackLLElements o) as [|elem elems];
      [reflexivity|]. apply printTensor_eq.
  - destruct (unpackLLElements o) as [|elem [|elem' elems]];
      cbn [List.length Nat.eqb]; try reflexivity.
    unfold bind, ret. apply printTensor_eq.
Qed.

End Tensor.

(** ** The loop over the operands in closed form *)

Module Request.

Import Tensor.

Lemma emitOperand_globals p pid ls rw :
  globals (emitOperand p pid ls rw)
  = (globals rw ++ match ls with [] => [] | l :: _ => [lineFormat l] end)%list.
Proof. destruct ls; cbn; [now rewrite app_nil_r | reflexivity]. Qed.

Lemma emitOperand_calls p pid ls rw :
  calls (emitOperand p pid ls rw)
  = (calls rw
     ++ map (fun l => mkCall (GlobalString (List.length (globals rw)))
                             (lineArgs p pid l)) ls)%list.
Proof. destruct ls; cbn; [now rewrite app_nil_r | reflexivity]. Qed.


Lemma emitOperands_app p pid lss lss' rw :
  emitOperands p pid (lss ++ lss') rw
  = emitOperands p pid lss' (emitOperands p pid lss rw).
Proof. apply fold_left_app. Qed.

Section Operands.

Variable ceil_log10 : Z -> Z.
Variables (prefixStr : Value) (numOperands : nat) (pid : PidArray).
Variable hex : bool.

Lemma operandLoop_eq :
  forall operands i rw,
    operandLoop ceil_log10 prefixStr numOperands pid hex operands i rw
    = match planOperands ceil_log10 numOperands pid hex operands i with
      | None => None
      | Some lss => Some (tt, emitOperands prefixStr pid lss rw)
      end.
Proof.
  induction operands as [|o operands IH]; intros i rw; [reflexivity|].
  cbn [operandLoop planOperands]. unfold bind.
  rewrite printOperand_eq.
  destruct (planOperand ceil_log10 i numOperands pid hex o) as [ls|];
    [|reflexivity].
  rewrite IH.
  now destruct (planOperands ceil_log10 numOperands pid hex operands (S i)).
Qed.

Lemma planOperands_app :
  forall operands operands' i,
    planOperands ceil_log10 numOperands pid hex (operands ++ operands') i
    = match planOperands ceil_log10 numOperands pid hex operands i,
            planOperands ceil_log10 numOperands pid hex operands'
                         (i + List.length operands) with
      | Some lss, Some lss' => Some (lss ++ lss')%list
      | _, _ => None
      end.
Proof.
  induction operands as [|o operands IH]; intros operands' i.
  - cbn. rewrite Nat.add_0_r.
    now destruct (planOperands ceil_log10 numOperands pid hex operands' i).
  - cbn [app planOperands List.length].
    destruct (planOperand ceil_log10 i numOperands pid hex o) as [ls|];
      [|reflexivity].
    rewrite IH. replace (S i + List.length operands)
      with (i + S (List.length operands)) by lia.
    destruct (planOperands ceil_log10 numOperands pid hex operands (S i));
      [|reflexivity].
    now destruct (planOperands ceil_log10 numOperands pid hex operands'
                               (i + S (List.length operands))).
Qed.

Lemma planOperands_length :
  forall operands i lss,
    planOperands ceil_log10 numOperands pid hex operands i = Some lss ->
    List.length lss = List.length operands.
Proof.
  induction operands as [|o operands IH]; intros i lss H; cbn in H.
  - now injection H as <-.
  - destruct (planOperand ceil_log10 i numOperands pid hex o); [|discriminate].
    destruct (planOperands ceil_log10 numOperands pid hex operands (S i))
      as [lss'|] eqn:E; [|discriminate].
    injection H as <-. cbn. f_equal. eauto.
Qed.

(** A successful plan splits at every operand. *)
Lemma planOperands_split operands k o lss :
  planOperands ceil_log10 numOperands pid hex operands 0 = Some lss ->
  nth_error operands k = Some o ->
  exists ls,
    planOperand ceil_log10 k numOperands pid hex o = Some ls
    /\ nth_error lss k = Some ls
    /\ planOperands ceil_log10 numOperands pid hex (firstn k operands) 0
       = Some (firstn k lss)
    /\ planOperands ceil_log10 numOperands pid hex (firstn (S k) operands) 0
       = Some (firstn k lss ++ [ls])%list.
Proof.
  intros Hplan Hnth.
  destruct (nth_error_split _ _ Hnth) as (pre & post & -> & <-).
  rewrite planOperands_app in Hplan. cbn [planOperands Nat.add] in Hplan.
  destruct (planOperands ceil_log10 numOperands pid hex pre 0)
    as [lpre|] eqn:Epre; [|discriminate].
  destruct (planOperand ceil_log10 (List.length pre) numOperands pid hex o)
    as [ls|] eqn:Eo; [|discriminate].
  destruct (planOperands ceil_log10 numOperands pid hex post
                         (S (List.length pre))) as [lpost|]; [|discriminate].
  injection Hplan as <-.
  pose proof (planOperands_length _ _ _ Epre) as Hlen.
  exists ls. split; [reflexivity|]. split.
  - rewrite nth_error_app2 by lia. now rewrite Hlen, Nat.sub_diag.
  - assert (F1 : firstn (List.length pre) (pre ++ o :: post)%list = pre).
    { rewrite firstn_app, Nat.sub_diag, firstn_all. apply app_nil_r. }
    assert (F2 : firstn (S (List.length pre)) (pre ++ o :: post)%list
                 = (pre ++ [o])%list).
    { replace (S (List.length pre)) with (List.length pre + 1) by lia.
      now rewrite firstn_app_2. }
    assert (F3 : firstn (List.length pre) (lpre ++ ls :: lpost)%list = lpre).
    { rewrite <- Hlen, firstn_app, Nat.sub_diag, firstn_all.
      apply app_nil_r. }
    rewrite F1, F2, F3. split; [assumption|].
    rewrite planOperands_app, Epre. cbn [planOperands Nat.add].
    now rewrite Eo.
Qed.

Lemma extends_refl rw : extends rw rw.
Proof. exists [], []. now rewrite !app_nil_r. Qed.

Lemma extends_trans a b c : extends a b -> extends b c -> extends a c.
Proof.
  intros (g1 & c1 & Hg1 & Hc1) (g2 & c2 & Hg2 & Hc2).
  exists (g1 ++ g2)%list, (c1 ++ c2)%list.
  now rewrite Hg2, Hc2, Hg1, Hc1, !app_assoc.
Qed.

Lemma emitOperand_extends ls rw : extends rw (emitOperand prefixStr pid ls rw).
Proof.
  eexists _, _. split; [apply emitOperand_globals | apply emitOperand_calls].
Qed.

Lemma emitOperands_extends lss :
  forall rw, extends rw (emitOperands prefixStr pid lss rw).
Proof.
  induction lss as [|ls lss IH]; intros rw; [apply extends_refl|].
  cbn. eapply extends_trans; [apply emitOperand_extends | apply IH].
Qed.

End Operands.

Lemma skipn_length_app {A} (l l' : list A) :
  skipn (List.length l) (l ++ l') = l'.
Proof. induction l; [reflexivity | assumption]. Qed.

Lemma In_firstn {A} n (l : list A) x : In x (firstn n l) -> In x l.
Proof.
  intros H. rewrite <- (firstn_skipn n l). apply in_or_app. now left.
Qed.

Lemma nth_error_at_length {A} (l r : list A) a :
  nth_error (l ++ a :: r) (List.length l) = Some a.
Proof. induction l; [reflexivity | assumption]. Qed.

Lemma nth_error_after_length {A} (l r : list A) a b :
  nth_error (l ++ a :: b :: r) (S (List.length l)) = Some b.
Proof. induction l; [reflexivity | assumption]. Qed.

Lemma newCalls_extends a b cs :
  calls b = (calls a ++ cs)%list -> newCalls a b = cs.
Proof. unfold newCalls. intros ->. apply skipn_length_app. Qed.

Lemma formatText_extends a b c s :
  extends a b -> formatText a c = Some s -> formatText b c = Some s.
Proof.
  intros (gs & _ & Hg & _). unfold formatText.
  destruct (callFormat c); [discriminate|]. rewrite Hg. intros H.
  rewrite nth_error_app1; [assumption|].
  apply nth_error_Some. congruence.
Qed.

Section Driver.

Variable ceil_log10 : Z -> Z.
Variable llGetPid : nat -> Value.

Local Notation "'pids'" := (llGetPid 0, llGetPid 1, llGetPid 2).

Lemma matchAndRewrite_no_operands op rw :
  getOperands op = [] ->
  matchAndRewrite ceil_log10 llGetPid op rw
  = match pidSpecs pids with
    | None => None
    | Some t =>
      Some (success,
            {| globals := globals rw ++ [getPrefix op; "pid (" ++ t ++ ")%s"];
               calls := calls rw
                        ++ [mkCall (GlobalString (S (List.length (globals rw))))
                                   [llGetPid 0; llGetPid 1; llGetPid 2;
                                    prefixHandle rw]];
               erased := true |})
    end.
Proof.
  intros Hops. unfold matchAndRewrite, pidSpecs. rewrite Hops.
  cbn [List.length Nat.eqb]. unfold bind at 1. unfold addStringToModule at 1.
  unfold bind at 1. unfold bind at 1.
  destruct (getFormatSubstr (llGetPid 0) false None) as [s0|]; [|reflexivity].
  cbn [lift]. unfold ret at 1. unfold bind at 1.
  destruct (getFormatSubstr (llGetPid 1) false None) as [s1|]; [|reflexivity].
  cbn [lift]. unfold ret at 1. unfold bind at 1.
  destruct (getFormatSubstr (llGetPid 2) false None) as [s2|]; [|reflexivity].
  cbn [lift]. unfold ret at 1.
  unfold bind, llPrintf, bind, addStringToModule, llPrintfValue, eraseOp, ret.
  cbn [globals calls erased]. unfold prefixHandle, mkCall.
  rewrite length_app, Nat.add_1_r, <- app_assoc.
  rewrite !StrFacts.append_assoc. reflexivity.
Qed.

Lemma matchAndRewrite_operands op rw :
  getOperands op <> [] ->
  matchAndRewrite ceil_log10 llGetPid op rw
  = match planOperands ceil_log10 (List.length (getOperands op)) pids
                       (getHex op) (getOperands op) 0 with
    | None => None
    | Some lss =>
      Some (success,
            setErased (emitOperands (prefixHandle rw) pids lss
                                    (withString (getPrefix op) rw)))
    end.
Proof.
  intros Hops. unfold matchAndRewrite.
  destruct (getOperands op) as [|o operands] eqn:E; [contradiction|].
  cbn [List.length Nat.eqb]. unfold bind at 1. unfold addStringToModule at 1.
  unfold bind at 1. rewrite operandLoop_eq.
  destruct (planOperands ceil_log10 (S (List.length operands)) pids
                         (getHex op) (o :: operands) 0); reflexivity.
Qed.

Lemma stateAtOperand_eq op rw k :
  stateAtOperand ceil_log10 llGetPid op rw k
  = match planOperands ceil_log10 (List.length (getOperands op)) pids
                       (getHex op) (firstn k (getOperands op)) 0 with
    | None => None
    | Some lss =>
      Some (emitOperands (prefixHandle rw) pids lss
                         (withString (getPrefix op) rw))
    end.
Proof.
  unfold stateAtOperand, bind. unfold addStringToModule at 1.
  rewrite operandLoop_eq.
  now destruct (planOperands ceil_log10 (List.length (getOperands op)) pids
                             (getHex op) (firstn k (getOperands op)) 0).
Qed.

(** Every operand of a successful run is processed between two
    intermediate states, and what it emits stays in the final state. *)
Lemma operand_run op rw r rw' k o :
  matchAndRewrite ceil_log10 llGetPid op rw = Some (r, rw') ->
  nth_error (getOperands op) k = Some o ->
  exists ls before,
    planOperand ceil_log10 k (List.length (getOperands op)) pids
                (getHex op) o = Some ls
    /\ stateAtOperand ceil_log10 llGetPid op rw k = Some before
    /\ stateAtOperand ceil_log10 llGetPid op rw (S k)
       = Some (emitOperand (prefixHandle rw) pids ls before)
    /\ extends (withString (getPrefix op) rw) before
    /\ extends (emitOperand (prefixHandle rw) pids ls before) rw'
    /\ emittedFor ceil_log10 llGetPid op rw k
       = Some (map (fun l => (option_map lineFormat (hd_error ls),
                              lineArgs (prefixHandle rw) pids l)) ls).
Proof.
  intros Hrun Hnth.
  assert (Hne : getOperands op <> []) by (intros E; rewrite E in Hnth;
                                          destruct k; discriminate).
  rewrite matchAndRewrite_operands in Hrun by assumption.
  destruct (planOperands ceil_log10 (List.length (getOperands op)) pids
                         (getHex op) (getOperands op) 0) as [lss|] eqn:Eplan;
    [|discriminate].
  injection Hrun as <- <-.
  destruct (planOperands_split _ _ _ _ _ _ _ _ Eplan Hnth)
    as (ls & Hls & Hk & Hpre & Hsucc).
  exists ls, (emitOperands (prefixHandle rw) pids (firstn k lss)
                           (withString (getPrefix op) rw)).
  assert (Hafter : stateAtOperand ceil_log10 llGetPid op rw (S k)
                   = Some (emitOperand (prefixHandle rw) pids ls
                             (emitOperands (prefixHandle rw) pids (firstn k lss)
                                (withString (getPrefix op) rw)))).
  { rewrite stateAtOperand_eq, Hsucc, emitOperands_app. reflexivity. }
  assert (Hbefore : stateAtOperand ceil_log10 llGetPid op rw k
                    = Some (emitOperands (prefixHandle rw) pids (firstn k lss)
                              (withString (getPrefix op) rw))).
  { now rewrite stateAtOperand_eq, Hpre. }
  repeat split; try assumption.
  - apply emitOperands_extends.
  - destruct (nth_error_split _ _ Hk) as (lpre & lpost & E & Hlen).
    assert (F : firstn k lss = lpre).
    { rewrite E, <- Hlen, firstn_app, Nat.sub_diag, firstn_all.
      apply app_nil_r. }
    rewrite F, E.
    change (lpre ++ ls :: lpost)%list with (lpre ++ [ls] ++ lpost)%list.
    rewrite !emitOperands_app. cbn [emitOperands fold_left].
    destruct (emitOperands_extends (prefixHandle rw) pids lpost
                (emitOperand (prefixHandle rw) pids ls
                   (emitOperands (prefixHandle rw) pids lpre
                      (withString (getPrefix op) rw))))
      as (gs & cs & Hg & Hc).
    exists gs, cs. split; assumption.
  - unfold emittedFor. rewrite Hbefore, Hafter.
    replace (k <? List.length (getOperands op))%nat with true
      by (symmetry; apply Nat.ltb_lt, nth_error_Some; congruence).
    f_equal.
    rewrite (newCalls_extends _ _ _ (emitOperand_calls _ _ _ _)).
    rewrite map_map. apply map_ext_in. intros l Hin.
    unfold emission, formatText. cbn [callFormat callArgs mkCall].
    f_equal. rewrite emitOperand_globals.
    destruct ls as [|l0 ls]; [contradiction|].
    rewrite nth_error_app2, Nat.sub_diag by lia. reflexivity.
Qed.

End Driver.

(** *** What the plan of an operand consists of *)

Lemma planElems_nth operand numOperands pid indices dimWidths hex :
  forall elems i ls,
    planElems operand numOperands pid indices dimWidths hex elems i = Some ls ->
    List.length ls = List.length elems
    /\ forall j l,
        nth_error ls j = Some l ->
        exists elem index,
          nth_error elems j = Some elem
          /\ nth_error indices (i + j) = Some index
          /\ planLine operand numOperands elem pid index dimWidths hex
             = Some l.
Proof.
  induction elems as [|elem elems IH]; intros i ls H; cbn in H.
  - injection H as <-. split; [reflexivity|]. intros [|j] l; discriminate.
  - destruct (nth_error indices i) as [index|] eqn:Ei; [|discriminate].
    destruct (planLine operand numOperands elem pid index dimWidths hex)
      as [l0|] eqn:El; [|discriminate].
    destruct (planElems operand numOperands pid indices dimWidths hex
                        elems (S i)) as [ls'|] eqn:E; [|discriminate].
    injection H as <-. destruct (IH _ _ E) as [Hlen Hnth].
    split; [cbn; now rewrite Hlen|].
    intros [|j] l Hl; cbn in Hl.
    + injection Hl as <-. exists elem, index. now rewrite Nat.add_0_r.
    + destruct (Hnth _ _ Hl) as (e & ix & He & Hix & Hp).
      exists e, ix. repeat split; try assumption.
      now rewrite Nat.add_succ_r.
Qed.

Lemma planOperand_elems ceil_log10 k numOperands pid hex o ls :
  planOperand ceil_log10 k numOperands pid hex o = Some ls ->
  planElems k numOperands pid (operandIndices o)
            (operandDimWidths ceil_log10 o) hex (unpackLLElements o) 0
  = Some ls
  /\ (unpackLLElements o <> [] ->
      tensorContract (unpackLLElements o) (operandIndices o)
                     (operandDimWidths ceil_log10 o) = true).
Proof.
  unfold planOperand, planTensor.
  destruct (operandType o);
    destruct (unpackLLElements o) as [|e [|e' es]];
    intros H; try discriminate H.
  1: { injection H as <-. split; [reflexivity | congruence]. }
  all: destruct (tensorContract _ _ _); [|discriminate H].
  all: split; [assumption | reflexivity].
Qed.

Lemma planLine_fields operand numOperands elem pid index dimWidths hex l :
  planLine operand numOperands elem pid index dimWidths hex = Some l ->
  lineCoords l = firstn maxAllowedRank index
  /\ lineElem l = elem
  /\ exists pidsText subs sub,
      pidSpecs pid = Some pidsText
      /\ indexSpecs dimWidths (firstn maxAllowedRank index) 0 = Some subs
      /\ getFormatSubstr elem hex None = Some sub
      /\ lineFormat l
         = lineText pidsText subs (List.length index) operand numOperands sub.
Proof.
  unfold planLine.
  destruct (pidSpecs pid) as [pidsText|]; [|discriminate].
  destruct (indexSpecs dimWidths (firstn maxAllowedRank index) 0)
    as [subs|]; [|discriminate].
  destruct (getFormatSubstr elem hex None) as [sub|]; [|discriminate].
  intros H. injection H as <-. cbn. repeat split.
  now exists pidsText, subs, sub.
Qed.

Lemma lineArgs_length p pid l :
  List.length (lineArgs p pid l) = 3 + List.length (lineCoords l) + 2.
Proof.
  unfold lineArgs. destruct pid as [[x y] z]. cbn [pidValues].
  rewrite !length_app. cbn. lia.
Qed.

Lemma planLine_args_bound operand numOperands elem pid index dimWidths hex l p :
  planLine operand numOperands elem pid index dimWidths hex = Some l ->
  List.length (lineArgs p pid l) <= 32.
Proof.
  intros H. apply planLine_fields in H as (Hc & _).
  rewrite lineArgs_length, Hc, length_firstn. unfold maxAllowedRank. lia.
Qed.

Lemma planElems_In operand numOperands pid indices dimWidths hex elems i ls l :
  planElems operand numOperands pid indices dimWidths hex elems i = Some ls ->
  In l ls ->
  exists elem index,
    In elem elems /\ In index indices
    /\ planLine operand numOperands elem pid index dimWidths hex = Some l.
Proof.
  intros H Hin. destruct (In_nth_error _ _ Hin) as [j Hj].
  destruct (planElems_nth _ _ _ _ _ _ _ _ _ H) as [_ Hnth].
  destruct (Hnth _ _ Hj) as (elem & index & He & Hi & Hp).
  exists elem, index. eauto using nth_error_In.
Qed.

(** The calls a list of operand plans adds satisfy whatever every line
    of the plans satisfies. *)
Lemma emitOperands_calls_Forall (P : PrintfCall -> Prop) p pid lss :
  (forall ls l h, In ls lss -> In l ls -> P (mkCall h (lineArgs p pid l))) ->
  forall rw, exists cs,
      calls (emitOperands p pid lss rw) = (calls rw ++ cs)%list
      /\ Forall P cs.
Proof.
  induction lss as [|ls lss IH]; intros HP rw.
  - exists []. cbn. now rewrite app_nil_r.
  - cbn [emitOperands fold_left].
    destruct (IH (fun ls' l h Hls => HP ls' l h (or_intror Hls))
                 (emitOperand p pid ls rw)) as (cs & Hc & Hcs).
    eexists. unfold emitOperands in Hc. rewrite Hc, emitOperand_calls.
    rewrite <- app_assoc. split; [reflexivity|].
    apply Forall_app. split; [|assumption].
    apply Forall_forall. intros c Hin. apply in_map_iff in Hin.
    destruct Hin as (l & <- & Hl).
    apply HP with (ls := ls); [now left|assumption].
Qed.

Lemma planOperands_In ceil_log10 numOperands pid hex operands lss ls :
  planOperands ceil_log10 numOperands pid hex operands 0 = Some lss ->
  In ls lss ->
  exists k o,
    nth_error operands k = Some o
    /\ planOperand ceil_log10 k numOperands pid hex o = Some ls.
Proof.
  intros H Hin. destruct (In_nth_error _ _ Hin) as [k Hk].
  assert (Hlt : k < List.length operands).
  { rewrite <- (planOperands_length _ _ _ _ _ _ _ H).
    apply nth_error_Some. congruence. }
  destruct (nth_error operands k) as [o|] eqn:Eo;
    [|apply nth_error_None in Eo; lia].
  destruct (planOperands_split _ _ _ _ _ _ _ _ H Eo) as (ls' & Hp & Hk' & _).
  exists k, o. split; [assumption|]. congruence.
Qed.

Lemma newCalls_trans a b c :
  extends a b -> extends b c ->
  newCalls a c = (newCalls a b ++ newCalls b c)%list.
Proof.
  intros (_ & c1 & _ & Hc1) (_ & c2 & _ & Hc2).
  rewrite (newCalls_extends a b c1 Hc1), (newCalls_extends b c c2 Hc2).
  apply newCalls_extends. now rewrite Hc2, Hc1, app_assoc.
Qed.

(** The texts and the arguments of the calls a list of operand plans
    adds are those of the plans, whatever the state they are added to. *)
Lemma emitOperands_shape p pid lss :
  forall rw,
    map (formatText (emitOperands p pid lss rw))
        (newCalls rw (emitOperands p pid lss rw))
    = planTexts lss
    /\ map callArgs (newCalls rw (emitOperands p pid lss rw))
       = map (lineArgs p pid) (List.concat lss).
Proof.
  induction lss as [|ls lss IH]; intros rw.
  - cbn. unfold newCalls. rewrite skipn_all. split; reflexivity.
  - change (emitOperands p pid (ls :: lss) rw)
      with (emitOperands p pid lss (emitOperand p pid ls rw)).
    destruct (IH (emitOperand p pid ls rw)) as [IHt IHa].
    pose proof (emitOperand_extends p pid ls rw) as E1.
    pose proof (emitOperands_extends p pid lss (emitOperand p pid ls rw))
      as E2.
    rewrite (newCalls_trans _ _ _ E1 E2), !map_app, IHt, IHa.
    cbn [planTexts flat_map List.concat]. fold (planTexts lss).
    rewrite (newCalls_extends _ _ _ (emitOperand_calls p pid ls rw)).
    rewrite !map_map, map_app. split; f_equal.
    apply map_ext_in. intros l Hl.
    destruct ls as [|l0 ls]; [contradiction|]. cbn [hd_error option_map].
    apply (formatText_extends _ _ _ _ E2).
    unfold formatText. cbn [callFormat mkCall]. rewrite emitOperand_globals.
    apply nth_error_at_length.
Qed.

Section Emissions.

Variable ceil_log10 : Z -> Z.
Variable llGetPid : nat -> Value.

Local Notation "'pids'" := (llGetPid 0, llGetPid 1, llGetPid 2).

(** What a successful run emits for operand [k]: one call per line of
    its plan, all against the text of the first line. *)
Lemma operand_emissions op rw r rw' k o :
  matchAndRewrite ceil_log10 llGetPid op rw = Some (r, rw') ->
  nth_error (getOperands op) k = Some o ->
  exists ls,
    planElems k (List.length (getOperands op)) pids (operandIndices o)
              (operandDimWidths ceil_log10 o) (getHex op)
              (unpackLLElements o) 0 = Some ls
    /\ emittedFor ceil_log10 llGetPid op rw k
       = Some (map (fun l => (option_map lineFormat (hd_error ls),
                              lineArgs (prefixHandle rw) pids l)) ls).
Proof.
  intros Hrun Hnth.
  destruct (operand_run _ _ _ _ _ _ _ _ Hrun Hnth)
    as (ls & before & Hplan & _ & _ & _ & _ & Hem).
  exists ls. split; [|assumption].
  now apply planOperand_elems in Hplan.
Qed.

(** Every call of a successful run carries the arguments of a line. *)
Lemma run_calls_Forall (P : PrintfCall -> Prop) op rw r rw' :
  matchAndRewrite ceil_log10 llGetPid op rw = Some (r, rw') ->
  (forall h, P (mkCall h [llGetPid 0; llGetPid 1; llGetPid 2;
                          prefixHandle rw])) ->
  (forall k o elem index l h,
      nth_error (getOperands op) k = Some o ->
      In elem (unpackLLElements o) ->
      In index (operandIndices o) ->
      planLine k (List.length (getOperands op)) elem pids index
               (operandDimWidths ceil_log10 o) (getHex op) = Some l ->
      P (mkCall h (lineArgs (prefixHandle rw) pids l))) ->
  Forall P (newCalls rw rw').
Proof.
  intros Hrun Hbare Hline.
  destruct (getOperands op) as [|o0 ops0] eqn:Eops.
  - rewrite matchAndRewrite_no_operands in Hrun by assumption.
    destruct (pidSpecs pids); [|discriminate]. injection Hrun as _ <-.
    unfold newCalls. cbn [calls]. rewrite skipn_length_app.
    constructor; [apply Hbare | constructor].
  - rewrite matchAndRewrite_operands in Hrun by congruence.
    rewrite Eops in Hrun. rewrite <- Eops in *.
    destruct (planOperands ceil_log10 (List.length (getOperands op)) pids
                           (getHex op) (getOperands op) 0) as [lss|] eqn:Ep;
      [|discriminate].
    injection Hrun as _ <-.
    destruct (emitOperands_calls_Forall P (prefixHandle rw) pids lss)
      with (rw := withString (getPrefix op) rw) as (cs & Hc & Hcs).
    + intros ls l h Hls Hl.
      destruct (planOperands_In _ _ _ _ _ _ _ Ep Hls) as (k & o & Hk & Hp).
      apply planOperand_elems in Hp as [Hp _].
      destruct (planElems_In _ _ _ _ _ _ _ _ _ _ Hp Hl)
        as (elem & index & He & Hi & Hpl).
      eapply Hline; eassumption.
    + unfold newCalls, setErased. cbn [calls]. rewrite Hc.
      cbn [withString calls]. now rewrite skipn_length_app.
Qed.

Lemma requestCalls_none op rw :
  requestCalls ceil_log10 llGetPid op = None ->
  matchAndRewrite ceil_log10 llGetPid op rw = None.
Proof.
  unfold requestCalls. destruct (getOperands op) as [|o0 ops0] eqn:Eops.
  - rewrite matchAndRewrite_no_operands by assumption.
    now destruct (pidSpecs pids).
  - rewrite matchAndRewrite_operands by congruence. rewrite Eops.
    now destruct (planOperands ceil_log10 (List.length (o0 :: ops0)) pids
                               (getHex op) (o0 :: ops0) 0).
Qed.

Lemma requestCalls_some op rw texts sides :
  requestCalls ceil_log10 llGetPid op = Some (texts, sides) ->
  exists rw',
    matchAndRewrite ceil_log10 llGetPid op rw = Some (success, rw')
    /\ map (formatText rw') (newCalls rw rw') = texts
    /\ map callArgs (newCalls rw rw')
       = map (fun side => (fst side ++ prefixHandle rw :: snd side)%list) sides
    /\ formatText rw' (mkCall (prefixHandle rw) []) = Some (getPrefix op).
Proof.
  unfold requestCalls. destruct (getOperands op) as [|o0 ops0] eqn:Eops.
  - rewrite matchAndRewrite_no_operands by assumption.
    destruct (pidSpecs pids) as [t|]; [|discriminate].
    intros H. injection H as <- <-. eexists. split; [reflexivity|].
    unfold newCalls, formatText, prefixHandle, mkCall.
    cbn [globals calls callFormat callArgs].
    rewrite skipn_length_app. cbn [map callFormat callArgs fst snd pidValues].
    rewrite nth_error_after_length, nth_error_at_length.
    repeat split.
  - rewrite matchAndRewrite_operands by congruence. rewrite Eops.
    destruct (planOperands ceil_log10 (List.length (o0 :: ops0)) pids
                           (getHex op) (o0 :: ops0) 0) as [lss|];
      [|discriminate].
    intros H. injection H as <- <-. eexists. split; [reflexivity|].
    pose proof (emitOperands_shape (prefixHandle rw) pids lss
                  (withString (getPrefix op) rw)) as [Ht Ha].
    pose proof (emitOperands_extends (prefixHandle rw) pids lss
                  (withString (getPrefix op) rw)) as (gs & cs & Hg & Hc).
    split; [exact Ht|]. split.
    + change (newCalls rw (setErased ?x))
        with (newCalls (withString (getPrefix op) rw) x).
      rewrite Ha, map_map. apply map_ext. intros l.
      unfold lineArgs, lineSides. cbn [fst snd].
      now rewrite <- app_assoc.
    + unfold formatText, setErased, mkCall, prefixHandle in *.
      cbn [callFormat globals]. rewrite Hg. cbn [withString globals].
      rewrite <- app_assoc. apply nth_error_at_length.
Qed.

End Emissions.

Lemma Forall2_of_maps {A B C} (f : A -> C) (gA gB : B -> C)
      (R : A -> A -> Prop) :
  (forall a a' b, f a = gA b -> f a' = gB b -> R a a') ->
  forall bs la lb,
    map f la = map gA bs -> map f lb = map gB bs -> Forall2 R la lb.
Proof.
  intros HR. induction bs as [|b bs IH]; intros la lb Ha Hb.
  - destruct la; [|discriminate]. destruct lb; [|discriminate]. constructor.
  - destruct la as [|a la]; [discriminate|].
    destruct lb as [|a' lb]; [discriminate|].
    cbn in Ha, Hb. injection Ha as Ha Hla. injection Hb as Hb Hlb.
    constructor; eauto.
Qed.

End Request.

(** ** Requests within the contract are lowered *)

Module Total.

Import Request.

Lemma dimWidthsLoop_eq ceil_log10 :
  forall shape dimWidths,
    dimWidthsLoop ceil_log10 shape dimWidths
    = (dimWidths
       ++ map (fun dim => if (0 <? dim)%Z then ceil_log10 dim else 0%Z)
              shape)%list.
Proof.
  induction shape as [|dim shape IH]; intros dimWidths; cbn.
  - now rewrite app_nil_r.
  - destruct (0 <? dim)%Z; rewrite IH, <- app_assoc; reflexivity.
Qed.


Example dimWidths_small_sizes :
  dimWidthsLoop exact_ceil_log10 [0; 1; 4; 10; 11; 1000; -1]%Z []
  = [0; 0; 1; 1; 2; 3; 0]%Z.
Proof. reflexivity. Qed.

Lemma dimWidthsLoop_length ceil_log10 shape :
  List.length (dimWidthsLoop ceil_log10 shape []) = List.length shape.
Proof. rewrite dimWidthsLoop_eq. cbn [app]. apply length_map. Qed.

Lemma printable_some hex v width :
  printable hex v -> exists s, getFormatSubstr v hex width = Some s.
Proof.
  unfold printable. intros H.
  destruct (getFormatSubstr v hex width) as [s|] eqn:E; [eauto|].
  apply Resolver.width_irrelevant with (w' := None) in E. contradiction.
Qed.

Lemma indexSpecs_total dimWidths :
  forall index dim,
    dim + List.length index <= List.length dimWidths ->
    Forall (printable false) index ->
    exists subs, indexSpecs dimWidths index dim = Some subs.
Proof.
  induction index as [|v index IH]; intros dim Hlen Hp; [now exists []|].
  cbn [indexSpecs]. cbn [List.length] in Hlen.
  destruct (nth_error dimWidths dim) as [w|] eqn:Ew;
    [|apply nth_error_None in Ew; lia].
  inversion Hp as [|? ? Hv Hrest]; subst.
  destruct (printable_some false v (Some w) Hv) as [sub ->].
  destruct (IH (S dim)) as [subs ->]; [lia | assumption | eauto].
Qed.

Lemma planLine_total operand numOperands elem pid index dimWidths hex t :
  pidSpecs pid = Some t ->
  List.length index = List.length dimWidths ->
  Forall (printable false) index ->
  printable hex elem ->
  exists l, planLine operand numOperands elem pid index dimWidths hex = Some l.
Proof.
  intros Hpid Hlen Hix He. unfold planLine. rewrite Hpid.
  destruct (indexSpecs_total dimWidths (firstn maxAllowedRank index) 0)
    as [subs ->].
  - rewrite length_firstn. lia.
  - apply Forall_forall. intros v Hv.
    eapply Forall_forall; [exact Hix|]. eapply In_firstn, Hv.
  - destruct (printable_some hex elem None He) as [sub ->]. eauto.
Qed.

Lemma planElems_total operand numOperands pid indices dimWidths hex t :
  pidSpecs pid = Some t ->
  Forall (fun index => List.length index = List.length dimWidths
                       /\ Forall (printable false) index) indices ->
  forall elems i,
    i + List.length elems <= List.length indices ->
    Forall (printable hex) elems ->
    exists ls,
      planElems operand numOperands pid indices dimWidths hex elems i
      = Some ls.
Proof.
  intros Hpid Hindices.
  induction elems as [|elem elems IH]; intros i Hlen Hp; [now exists []|].
  cbn [planElems]. cbn [List.length] in Hlen.
  destruct (nth_error indices i) as [index|] eqn:Ei;
    [|apply nth_error_None in Ei; lia].
  inversion Hp as [|? ? He Hrest]; subst.
  pose proof (proj1 (Forall_forall _ _) Hindices index (nth_error_In _ _ Ei))
    as [Hl Hpi].
  destruct (planLine_total operand numOperands elem pid index dimWidths hex t
              Hpid Hl Hpi He) as [l ->].
  destruct (IH (S i)) as [ls ->]; [lia | assumption | eauto].
Qed.

Lemma planOperand_total ceil_log10 k numOperands pid hex o t :
  pidSpecs pid = Some t ->
  wellFormedOperand hex o ->
  exists ls, planOperand ceil_log10 k numOperands pid hex o = Some ls.
Proof.
  intros Hpid [Hty Hp].
  unfold planOperand, planTensor, operandIndices, operandDimWidths.
  destruct (operandType o) as [shape|].
  - destruct Hty as [Hlen Hix].
    destruct (unpackLLElements o) as [|elem elems] eqn:Ee; [now exists []|].
    destruct (emitIndices o) as [|front indices] eqn:Ei; [discriminate|].
    assert (Hc : tensorContract (elem :: elems) (front :: indices)
                                (dimWidthsLoop ceil_log10 shape []) = true).
    { unfold tensorContract. rewrite Hlen, Nat.eqb_refl.
      inversion Hix as [|? ? [Hf _] _]; subst.
      now rewrite dimWidthsLoop_length, Hf, Nat.eqb_refl. }
    rewrite Hc.
    apply planElems_total with (t := t); try assumption;
      [|cbn [List.length] in *; lia].
    eapply Forall_impl; [|exact Hix]. cbn. intros ix [Hl Hpi].
    now rewrite dimWidthsLoop_length.
  - destruct (unpackLLElements o) as [|elem [|elem' elems]];
      try discriminate.
    cbn [tensorContract List.length Nat.eqb andb].
    apply planElems_total with (t := t); try assumption; [|cbn; lia].
    repeat constructor.
Qed.

Lemma planOperands_total ceil_log10 numOperands pid hex t :
  pidSpecs pid = Some t ->
  forall operands i,
    Forall (wellFormedOperand hex) operands ->
    exists lss,
      planOperands ceil_log10 numOperands pid hex operands i = Some lss.
Proof.
  intros Hpid. induction operands as [|o operands IH]; intros i Hwf;
    [now exists []|].
  inversion Hwf as [|? ? Ho Hrest]; subst. cbn [planOperands].
  destruct (planOperand_total ceil_log10 i numOperands pid hex o t Hpid Ho)
    as [ls ->].
  destruct (IH (S i) Hrest) as [lss ->]. eauto.
Qed.

(** A request within the contract is lowered from every state. *)
Lemma matchAndRewrite_total ceil_log10 llGetPid op rw :
  wellFormed llGetPid op ->
  exists rw', matchAndRewrite ceil_log10 llGetPid op rw = Some (success, rw').
Proof.
  intros (H0 & H1 & H2 & Hops).
  destruct (printable_some false _ None H0) as [s0 E0].
  destruct (printable_some false _ None H1) as [s1 E1].
  destruct (printable_some false _ None H2) as [s2 E2].
  assert (Hpid : pidSpecs (llGetPid 0, llGetPid 1, llGetPid 2)
                 = Some (s0 ++ ", " ++ s1 ++ ", " ++ s2))
    by (unfold pidSpecs; now rewrite E0, E1, E2).
  destruct (requestCalls ceil_log10 llGetPid op) as [[texts sides]|] eqn:E.
  - destruct (requestCalls_some ceil_log10 llGetPid op rw _ _ E)
      as (rw' & Hrun & _). eauto.
  - exfalso. unfold requestCalls in E. rewrite Hpid in E.
    destruct (getOperands op) as [|o0 ops0] eqn:Eops; [discriminate|].
    destruct (planOperands_total ceil_log10 (List.length (o0 :: ops0)) _
                (getHex op) _ Hpid (o0 :: ops0) 0 Hops) as [lss Hlss].
    rewrite Hlss in E. discriminate.
Qed.

End Total.

(** ** The specifier resolver *)

Section ResolverClaims.

(** C4: in hex mode the resolver returns ["0x%0"], the bit width
    divided by 4, ["ll"] exactly when the bit width exceeds 32, and
    ["x"], for every integer and every floating type; the width argument
    does not change the result. *)
Theorem hex_specifier (id : nat) (width : option Z) :
  (forall sg w,
      getFormatSubstr (SSAValue (IntegerType sg w) id) true width
      = Some ("0x%0" ++ Str.of_unsigned (w / 4)
              ++ (if (32 <? w)%N then "ll" else "") ++ "x"))
  /\ (forall k,
        getFormatSubstr (SSAValue (FloatType k) id) true width
        = Some ("0x%0" ++ Str.of_unsigned (floatWidth k / 4)
                ++ (if (32 <? floatWidth k)%N then "ll" else "") ++ "x"))
  /\ (forall v width',
        getFormatSubstr v true width' = getFormatSubstr v true width).
Proof.
  split; [|split].
  - intros sg w. now apply Resolver.hex_form.
  - intros k. now apply Resolver.hex_form.
  - intros v width'.
    destruct (getIntOrFloatBitWidth (getType v)) as [bits|] eqn:E.
    + now rewrite !(Resolver.hex_form v bits).
    + unfold getFormatSubstr. rewrite E.
      now destruct (getType v).
Qed.

Example hex_specifier_f16 :
  getFormatSubstr (SSAValue (FloatType F16) 0) true None = Some "0x%04x".
Proof. reflexivity. Qed.

Example hex_specifier_i32 :
  getFormatSubstr (SSAValue (IntegerType Signless 32) 0) true (Some 9%Z)
  = Some "0x%08x".
Proof. reflexivity. Qed.

Example hex_specifier_i64 :
  getFormatSubstr (SSAValue (IntegerType Signed 64) 0) true (Some 7%Z)
  = Some "0x%016llx".
Proof. reflexivity. Qed.

(** C5: in decimal mode the resolver returns ["%"], the width in
    decimal when one is supplied, and the conversion letters of the
    type ([specLetters]); for a pointer it returns ["%p"] whatever the
    mode and the width. *)
Theorem decimal_specifier (v : Value) (width : option Z) (letters : string) :
  specLetters (getType v) = Some letters ->
  getFormatSubstr v false width = Some ("%" ++ widthText width ++ letters)
  /\ (forall p hex width',
        getType p = LLVMPointerType ->
        getFormatSubstr p hex width' = Some "%p").
Proof.
  intros H. split; [|intros; now apply Resolver.pointer].
  unfold getFormatSubstr, widthText.
  destruct (getType v) as [|k|sg w|]; try discriminate.
  - destruct k; try discriminate; injection H as <-; cbn;
      destruct width; now rewrite ?StrFacts.append_assoc.
  - destruct sg; cbn in H |- *; destruct (w =? 64)%N;
      try (destruct (w <? 64)%N; [|discriminate]);
      injection H as <-; destruct width; cbn;
      now rewrite ?StrFacts.append_assoc.
Qed.

Lemma decimal_specifier_witness :
  getFormatSubstr (SSAValue (IntegerType Signed 64) 7) false (Some 3%Z)
  = Some "%3lli"
  /\ getFormatSubstr (SSAValue (IntegerType Signless 32) 7) false None
     = Some "%u"
  /\ getFormatSubstr (GlobalString 0) true (Some 5%Z) = Some "%p".
Proof.
  split; [|split].
  - apply (decimal_specifier (SSAValue (IntegerType Signed 64) 7)
                             (Some 3%Z) "lli"). reflexivity.
  - apply (decimal_specifier (SSAValue (IntegerType Signless 32) 7)
                             None "u"). reflexivity.
  - apply (decimal_specifier (SSAValue (FloatType F16) 0) None "f");
      reflexivity.
Defined.

End ResolverClaims.

(** ** The request formatter *)

Section FormatterClaims.

Variable ceil_log10 : Z -> Z.
Variable llGetPid : nat -> Value.

Local Notation "'pids'" := (llGetPid 0, llGetPid 1, llGetPid 2).

(** C3, as amended: a request without operands emits exactly one
    call; its format string is ["pid ("], the three program-id
    specifiers separated by [", "], and [")%s"] with no space before
    [%s]; its arguments are the three program ids and the prefix
    string, in that order. *)
Theorem no_operands_one_call (op : PrintOp) (rw : Rewriter)
        (s0 s1 s2 : string) :
  getOperands op = [] ->
  getFormatSubstr (llGetPid 0) false None = Some s0 ->
  getFormatSubstr (llGetPid 1) false None = Some s1 ->
  getFormatSubstr (llGetPid 2) false None = Some s2 ->
  exists rw',
    matchAndRewrite ceil_log10 llGetPid op rw = Some (success, rw')
    /\ map (emission rw') (newCalls rw rw')
       = [(Some ("pid (" ++ s0 ++ ", " ++ s1 ++ ", " ++ s2 ++ ")%s"),
           [llGetPid 0; llGetPid 1; llGetPid 2; prefixHandle rw])]
    /\ newGlobals rw rw'
       = [getPrefix op; "pid (" ++ s0 ++ ", " ++ s1 ++ ", " ++ s2 ++ ")%s"]
    /\ formatText rw' (mkCall (prefixHandle rw) []) = Some (getPrefix op).
Proof.
  intros Hops H0 H1 H2.
  rewrite (Request.matchAndRewrite_no_operands _ _ _ _ Hops).
  unfold pidSpecs. rewrite H0, H1, H2.
  eexists. split; [reflexivity|].
  unfold newCalls, newGlobals, emission, formatText, prefixHandle, mkCall.
  cbn [globals calls callFormat callArgs].
  rewrite !Request.skipn_length_app. cbn [map callFormat callArgs].
  rewrite Request.nth_error_after_length, Request.nth_error_at_length.
  rewrite !StrFacts.append_assoc. repeat split.
Qed.

(** C10: a ranked operand of which the thread owns no element is
    skipped: the loop body returns without failure and leaves the
    rewriter as it was, the loop goes on with the next operand, and in
    a lowered request no call is emitted for that operand. *)
Theorem empty_operand_skipped (prefixStr : Value) (k numOperands : nat)
        (pid : PidArray) (hex : bool) (o : Operand) (shape : list Z)
        (rw : Rewriter) :
  operandType o = RankedTensorType shape ->
  unpackLLElements o = [] ->
  printOperand ceil_log10 prefixStr k numOperands pid hex o rw = Some (tt, rw)
  /\ (forall rest,
        operandLoop ceil_log10 prefixStr numOperands pid hex (o :: rest) k rw
        = operandLoop ceil_log10 prefixStr numOperands pid hex rest (S k) rw)
  /\ (forall op rw0 r rw',
        matchAndRewrite ceil_log10 llGetPid op rw0 = Some (r, rw') ->
        nth_error (getOperands op) k = Some o ->
        emittedFor ceil_log10 llGetPid op rw0 k = Some []).
Proof.
  intros Ht He.
  assert (H : printOperand ceil_log10 prefixStr k numOperands pid hex o rw
              = Some (tt, rw)).
  { unfold printOperand. rewrite Ht, He. reflexivity. }
  split; [assumption|]. split.
  - intros rest. cbn [operandLoop]. unfold bind. now rewrite H.
  - intros op rw0 r rw' Hrun Hnth.
    destruct (Request.operand_emissions _ _ _ _ _ _ _ _ Hrun Hnth)
      as (ls & Hplan & Hem).
    rewrite He in Hplan. cbn in Hplan. injection Hplan as <-. exact Hem.
Qed.

(** C2: every call a request emits carries at most 32 arguments; the
    call for an owned element carries the three program ids, the first
    [maxAllowedRank] = 27 components of the element's index at most,
    the prefix string and the element. *)
Theorem argument_ceiling (op : PrintOp) (rw rw' : Rewriter)
        (r : LogicalResult) :
  matchAndRewrite ceil_log10 llGetPid op rw = Some (r, rw') ->
  Z.of_nat maxAllowedRank = (kMaxPrintfOperands - 3 - 2)%Z
  /\ Forall (fun c => Z.of_nat (List.length (callArgs c))
                      <= kMaxPrintfOperands)%Z
            (newCalls rw rw')
  /\ forall k o,
      nth_error (getOperands op) k = Some o ->
      exists es,
        emittedFor ceil_log10 llGetPid op rw k = Some es
        /\ List.length es = List.length (unpackLLElements o)
        /\ forall i e,
            nth_error es i = Some e ->
            exists elem index,
              nth_error (unpackLLElements o) i = Some elem
              /\ nth_error (operandIndices o) i = Some index
              /\ snd e = ([llGetPid 0; llGetPid 1; llGetPid 2]
                          ++ firstn maxAllowedRank index
                          ++ [prefixHandle rw; elem])%list
              /\ List.length (firstn maxAllowedRank index) <= maxAllowedRank
              /\ List.length (snd e) <= 32.
Proof.
  intros Hrun. split; [reflexivity|]. split.
  - apply (Request.run_calls_Forall ceil_log10 llGetPid _ op rw r rw' Hrun).
    + intros h. cbn. unfold kMaxPrintfOperands. lia.
    + intros k o elem index l h _ _ _ Hl. cbn [callArgs mkCall].
      apply Request.planLine_args_bound with (p := prefixHandle rw) in Hl.
      unfold kMaxPrintfOperands. lia.
  - intros k o Hnth.
    destruct (Request.operand_emissions _ _ _ _ _ _ _ _ Hrun Hnth)
      as (ls & Hplan & Hem).
    destruct (Request.planElems_nth _ _ _ _ _ _ _ _ _ Hplan) as [Hlen Hls].
    eexists. split; [exact Hem|]. split; [now rewrite length_map|].
    intros i e Hi. rewrite nth_error_map in Hi.
    destruct (nth_error ls i) as [l|] eqn:El; [|discriminate].
    injection Hi as <-. cbn [snd].
    destruct (Hls _ _ El) as (elem & index & He & Hix & Hl).
    exists elem, index. cbn [Nat.add] in Hix.
    pose proof (Request.planLine_args_bound _ _ _ _ _ _ _ _
                  (prefixHandle rw) Hl) as Hb.
    apply Request.planLine_fields in Hl as (Hc & Hel & _).
    repeat split; try assumption.
    + unfold lineArgs. cbn [pidValues]. now rewrite Hc, Hel.
    + rewrite length_firstn. lia.
Qed.

(** C1: for an operand whose rank exceeds [maxAllowedRank] = 27, the
    index section of every emitted format string holds exactly 27
    coordinate specifiers, then the marker ["... (truncated)"], and
    every call carries exactly the first 27 coordinates of its
    element and none past the cutoff. *)
Theorem index_truncated (op : PrintOp) (rw rw' : Rewriter)
        (r : LogicalResult) (k : nat) (o : Operand) (shape : list Z) :
  matchAndRewrite ceil_log10 llGetPid op rw = Some (r, rw') ->
  nth_error (getOperands op) k = Some o ->
  operandType o = RankedTensorType shape ->
  maxAllowedRank < List.length shape ->
  Forall (fun index => List.length index = List.length shape)
         (emitIndices o) ->
  exists es,
    emittedFor ceil_log10 llGetPid op rw k = Some es
    /\ List.length es = List.length (unpackLLElements o)
    /\ forall i e,
        nth_error es i = Some e ->
        exists pidsText subs rest index0 elem index,
          fst e = Some ("pid (" ++ pidsText ++ ") "
                        ++ "idx (" ++ String.concat ", " subs
                        ++ ", " ++ "... (truncated)" ++ ")" ++ rest)
          /\ List.length subs = maxAllowedRank
          /\ nth_error (emitIndices o) 0 = Some index0
          /\ Forall2 (fun v sub =>
                        exists w,
                          In w (operandDimWidths ceil_log10 o)
                          /\ getFormatSubstr v false (Some w) = Some sub)
                     (firstn maxAllowedRank index0) subs
          /\ Str.count "%" (String.concat ", " subs
                            ++ ", " ++ "... (truncated)") = maxAllowedRank
          /\ nth_error (unpackLLElements o) i = Some elem
          /\ nth_error (emitIndices o) i = Some index
          /\ snd e = ([llGetPid 0; llGetPid 1; llGetPid 2]
                      ++ firstn maxAllowedRank index
                      ++ [prefixHandle rw; elem])%list
          /\ List.length (firstn maxAllowedRank index) = maxAllowedRank.
Proof.
  intros Hrun Hnth Ht Hrank Hall.
  destruct (Request.operand_emissions _ _ _ _ _ _ _ _ Hrun Hnth)
    as (ls & Hplan & Hem).
  destruct (Request.planElems_nth _ _ _ _ _ _ _ _ _ Hplan) as [Hlen Hls].
  assert (Hix : operandIndices o = emitIndices o)
    by (unfold operandIndices; now rewrite Ht).
  rewrite Hix in Hls.
  eexists. split; [exact Hem|]. split; [now rewrite length_map|].
  intros i e Hi. rewrite nth_error_map in Hi.
  destruct (nth_error ls i) as [l|] eqn:El; [|discriminate].
  injection Hi as <-. cbn [fst snd].
  destruct ls as [|l0 ls']; [destruct i; discriminate|].
  cbn [hd_error option_map].
  destruct (Hls 0 l0 eq_refl) as (elem0 & index0 & _ & Hix0 & Hl0).
  destruct (Hls _ _ El) as (elem & index & He & Hixi & Hl).
  cbn [Nat.add] in Hix0, Hixi.
  apply Request.planLine_fields in Hl0
    as (_ & _ & pidsText & subs & sub & _ & Hsubs & _ & Hfmt).
  apply Request.planLine_fields in Hl as (Hc & Hel & _).
  assert (Hlen0 : List.length index0 = List.length shape).
  { eapply Forall_forall in Hall; [exact Hall|].
    eapply nth_error_In; eassumption. }
  assert (Hleni : List.length index = List.length shape).
  { eapply Forall_forall in Hall; [exact Hall|].
    eapply nth_error_In; eassumption. }
  assert (Hn : List.length subs = maxAllowedRank).
  { rewrite (Loops.indexSpecs_length _ _ _ _ Hsubs), length_firstn. lia. }
  exists pidsText, subs,
    ("%s" ++ (if (1 <? List.length (getOperands op))%nat
              then operandTag k else "") ++ sub),
    index0, elem, index.
  repeat split; try assumption.
  - rewrite Hfmt. unfold lineText, truncationTail, truncationMarker.
    replace (maxAllowedRank <? List.length index0)%nat with true
      by (symmetry; apply Nat.ltb_lt; lia).
    cbn [maxAllowedRank Nat.eqb]. now rewrite !StrFacts.append_assoc.
  - eapply Loops.indexSpecs_Forall2; eassumption.
  - rewrite StrFacts.count_append.
    rewrite (Loops.count_concat "%" ", " subs eq_refl
               (Loops.indexSpecs_one_percent _ _ _ _ Hsubs)).
    cbn. lia.
  - unfold lineArgs. cbn [pidValues]. now rewrite Hc, Hel.
  - rewrite length_firstn. lia.
Qed.

(** C7: when a request has more than one operand, the format string
    of every call emitted for operand [k] contains the text
    ["(operand k) "]; the tag holds no conversion, and every conversion
    of the format string is bound to one argument of the first call.
    When the request has a single operand no format string contains
    such a tag. *)
Theorem operand_tag (op : PrintOp) (rw rw' : Rewriter) (r : LogicalResult)
        (k : nat) (o : Operand) :
  matchAndRewrite ceil_log10 llGetPid op rw = Some (r, rw') ->
  nth_error (getOperands op) k = Some o ->
  exists es,
    emittedFor ceil_log10 llGetPid op rw k = Some es
    /\ List.length es = List.length (unpackLLElements o)
    /\ Str.count "%" ("(operand " ++ Str.of_unsigned (N.of_nat k) ++ ") ") = 0
    /\ forall e,
        In e es ->
        exists fmt,
          fst e = Some fmt
          /\ (1 < List.length (getOperands op) ->
              Str.contains
                ("(operand " ++ Str.of_unsigned (N.of_nat k) ++ ") ") fmt)
          /\ (List.length (getOperands op) = 1 ->
              forall j,
                ~ Str.contains
                    ("(operand " ++ Str.of_unsigned (N.of_nat j) ++ ") ") fmt)
          /\ (forall e0, nth_error es 0 = Some e0 ->
                         Str.count "%" fmt = List.length (snd e0)).
Proof.
  intros Hrun Hnth.
  destruct (Request.operand_emissions _ _ _ _ _ _ _ _ Hrun Hnth)
    as (ls & Hplan & Hem).
  destruct (Request.planElems_nth _ _ _ _ _ _ _ _ _ Hplan) as [Hlen Hls].
  eexists. split; [exact Hem|]. split; [now rewrite length_map|].
  split; [apply Loops.operandTag_percent|].
  intros e Hin. apply in_map_iff in Hin as (l & <- & Hl). cbn [fst snd].
  destruct ls as [|l0 ls']; [contradiction|]. cbn [hd_error option_map].
  destruct (Hls 0 l0 eq_refl) as (elem0 & index0 & _ & _ & Hl0).
  pose proof (Request.lineArgs_length (prefixHandle rw)
                (llGetPid 0, llGetPid 1, llGetPid 2) l0) as Hargs.
  apply Request.planLine_fields in Hl0
    as (Hc0 & _ & pidsText & subs & sub & Hp & Hsubs & Hsub & Hfmt).
  exists (lineFormat l0). split; [reflexivity|]. rewrite Hfmt.
  split; [|split].
  - intros Hmany. unfold lineText.
    replace (1 <? List.length (getOperands op))%nat with true
      by (symmetry; now apply Nat.ltb_lt).
    do 8 apply StrFacts.contains_append_l.
    exists "", sub. reflexivity.
  - intros Hone j Hcontains. rewrite Hone in Hcontains.
    apply StrFacts.contains_occurs with (c := "o"%char) in Hcontains;
      [|apply Loops.operandTag_has_o].
    rewrite (Loops.lineText_no_o _ _ _ _ _ _ _ _ _ _ _ _ Hp Hsubs Hsub)
      in Hcontains.
    discriminate.
  - intros e0 He0. cbn [nth_error map] in He0. injection He0 as <-. cbn [snd].
    rewrite (Loops.lineText_percent _ _ _ _ _ _ _ _ _ _ _ _ _ Hp Hsubs Hsub).
    rewrite Hargs, Hc0, (Loops.indexSpecs_length _ _ _ _ Hsubs). reflexivity.
Qed.

(** C9: formatting is deterministic. Lowering the same request from
    any two states of the rewriter succeeds or fails alike and emits
    the same format strings, byte for byte, with the same arguments in
    the same order; the one argument that names the prefix string is,
    in either run, the handle under which that run interned the same
    prefix text. *)
Theorem formatting_deterministic (op : PrintOp) (rwA rwB rwA' : Rewriter)
        (r : LogicalResult) :
  matchAndRewrite ceil_log10 llGetPid op rwA = Some (r, rwA') ->
  exists rwB',
    matchAndRewrite ceil_log10 llGetPid op rwB = Some (r, rwB')
    /\ map (formatText rwA') (newCalls rwA rwA')
       = map (formatText rwB') (newCalls rwB rwB')
    /\ Forall2 (fun cA cB =>
                  exists front back,
                    callArgs cA = (front ++ prefixHandle rwA :: back)%list
                    /\ callArgs cB = (front ++ prefixHandle rwB :: back)%list)
               (newCalls rwA rwA') (newCalls rwB rwB')
    /\ formatText rwA' (mkCall (prefixHandle rwA) []) = Some (getPrefix op)
    /\ formatText rwB' (mkCall (prefixHandle rwB) []) = Some (getPrefix op)
    /\ (List.length (globals rwA) = List.length (globals rwB) ->
        map callArgs (newCalls rwA rwA') = map callArgs (newCalls rwB rwB')).
Proof.
  intros HA.
  destruct (requestCalls ceil_log10 llGetPid op) as [[texts sides]|] eqn:E.
  - destruct (Request.requestCalls_some _ _ op rwA _ _ E)
      as (rwA2 & HA2 & HtA & HaA & HpA).
    destruct (Request.requestCalls_some _ _ op rwB _ _ E)
      as (rwB' & HB & HtB & HaB & HpB).
    rewrite HA in HA2. injection HA2 as -> <-.
    exists rwB'. split; [assumption|]. split; [congruence|].
    split; [|split; [assumption|split; [assumption|]]].
    + eapply Request.Forall2_of_maps; [|exact HaA|exact HaB].
      intros a a' side Ha Ha'. exists (fst side), (snd side). now split.
    + intros Hlen. rewrite HaA, HaB. unfold prefixHandle. now rewrite Hlen.
  - rewrite Request.requestCalls_none in HA by assumption. discriminate.
Qed.

(** C8: for an operand with at least one owned element, whose
    elements share one type and whose indices share their types, the
    format string built for every element is the one built for the
    first; that string alone is registered, and every call of the
    operand, the first included, is emitted against its handle with
    the arguments of its own element. *)
Theorem format_string_cached (op : PrintOp) (rw rw' : Rewriter)
        (r : LogicalResult) (k : nat) (o : Operand) :
  matchAndRewrite ceil_log10 llGetPid op rw = Some (r, rw') ->
  nth_error (getOperands op) k = Some o ->
  unpackLLElements o <> [] ->
  (forall e e', In e (unpackLLElements o) -> In e' (unpackLLElements o) ->
                getType e = getType e') ->
  (forall ix ix', In ix (operandIndices o) -> In ix' (operandIndices o) ->
                  map getType ix = map getType ix') ->
  exists before after fmt,
    stateAtOperand ceil_log10 llGetPid op rw k = Some before
    /\ stateAtOperand ceil_log10 llGetPid op rw (S k) = Some after
    /\ newGlobals before after = [fmt]
    /\ nth_error (globals rw') (List.length (globals before)) = Some fmt
    /\ List.length (newCalls before after)
       = List.length (unpackLLElements o)
    /\ forall i elem index,
        nth_error (unpackLLElements o) i = Some elem ->
        nth_error (operandIndices o) i = Some index ->
        exists args,
          formatLine (prefixHandle rw) k (List.length (getOperands op))
                     elem (llGetPid 0, llGetPid 1, llGetPid 2) index
                     (operandDimWidths ceil_log10 o) (getHex op)
          = Some (fmt, args)
          /\ nth_error (newCalls before after) i
             = Some (mkCall (GlobalString (List.length (globals before)))
                            args).
Proof.
  intros Hrun Hnth Hne Helems Hindices.
  destruct (Request.operand_run _ _ _ _ _ _ _ _ Hrun Hnth)
    as (ls & before & Hplan & Hbefore & Hafter & _ & Hext & _).
  apply Request.planOperand_elems in Hplan as [Hplan _].
  destruct (Request.planElems_nth _ _ _ _ _ _ _ _ _ Hplan) as [Hlen Hls].
  destruct ls as [|l0 ls'].
  { destruct (unpackLLElements o); [contradiction | discriminate]. }
  exists before, (emitOperand (prefixHandle rw)
                              (llGetPid 0, llGetPid 1, llGetPid 2)
                              (l0 :: ls') before), (lineFormat l0).
  pose proof (Request.newCalls_extends _ _ _
                (Request.emitOperand_calls (prefixHandle rw)
                   (llGetPid 0, llGetPid 1, llGetPid 2) (l0 :: ls') before))
    as Hcalls.
  split; [assumption|]. split; [assumption|]. split; [|split; [|split]].
  - unfold newGlobals. rewrite Request.emitOperand_globals.
    apply Request.skipn_length_app.
  - destruct Hext as (gs & _ & Hg & _). rewrite Hg.
    rewrite Request.emitOperand_globals, <- app_assoc.
    apply Request.nth_error_at_length.
  - now rewrite Hcalls, length_map.
  - intros i elem index He Hix.
    destruct (nth_error (l0 :: ls') i) as [l|] eqn:El.
    2:{ apply nth_error_None in El.
        assert (i < List.length (unpackLLElements o))
          by (apply nth_error_Some; congruence).
        rewrite Hlen in El. lia. }
    destruct (Hls _ _ El) as (elem' & index' & He' & Hix' & Hl).
    cbn [Nat.add] in Hix'. rewrite He in He'. rewrite Hix in Hix'.
    injection He' as <-. injection Hix' as <-.
    destruct (Hls 0 l0 eq_refl) as (elem0 & index0 & He0 & Hix0 & Hl0).
    cbn [Nat.add] in Hix0.
    exists (lineArgs (prefixHandle rw) (llGetPid 0, llGetPid 1, llGetPid 2) l).
    split.
    + rewrite Tensor.formatLine_plan, Hl. f_equal. f_equal.
      eapply Loops.planLine_format_types; [exact Hl | exact Hl0 | |].
      * apply Helems; eapply nth_error_In; eassumption.
      * apply Hindices; eapply nth_error_In; eassumption.
    + rewrite Hcalls, nth_error_map, El. reflexivity.
Qed.

End FormatterClaims.

(** C3 as stated fails: the format string of the bare-prefix call has
    no space between the closing parenthesis and [%s]. *)
Lemma no_operands_format_has_no_space :
  exists rw',
    matchAndRewrite exact_ceil_log10 Sample.llGetPid Sample.hello Sample.rw0
    = Some (success, rw')
    /\ map (emission rw') (newCalls Sample.rw0 rw')
       = [(Some "pid (%u, %u, %u)%s",
           [Sample.llGetPid 0; Sample.llGetPid 1; Sample.llGetPid 2;
            GlobalString 0])]
    /\ map (emission rw') (newCalls Sample.rw0 rw')
       <> [(Some "pid (%u, %u, %u) %s",
            [Sample.llGetPid 0; Sample.llGetPid 1; Sample.llGetPid 2;
             GlobalString 0])].
Proof.
  eexists. split; [vm_compute; reflexivity|].
  split; [vm_compute; reflexivity|].
  vm_compute. discriminate.
Qed.

Lemma no_operands_one_call_witness :
  exists rw',
    matchAndRewrite exact_ceil_log10 Sample.llGetPid Sample.hello Sample.rw0
    = Some (success, rw')
    /\ map (emission rw') (newCalls Sample.rw0 rw')
       = [(Some "pid (%u, %u, %u)%s",
           [Sample.llGetPid 0; Sample.llGetPid 1; Sample.llGetPid 2;
            GlobalString 0])]
    /\ newGlobals Sample.rw0 rw' = ["hello"; "pid (%u, %u, %u)%s"]
    /\ formatText rw' (mkCall (GlobalString 0) []) = Some "hello".
Proof.
  apply (no_operands_one_call exact_ceil_log10 Sample.llGetPid Sample.hello
                              Sample.rw0 "%u" "%u" "%u"); reflexivity.
Defined.

Lemma empty_operand_skipped_witness :
  printOperand exact_ceil_log10 (GlobalString 0) 0 2
               (Sample.llGetPid 0, Sample.llGetPid 1, Sample.llGetPid 2)
               true Sample.notOwned (withString " x: " Sample.rw0)
  = Some (tt, withString " x: " Sample.rw0)
  /\ emittedFor exact_ceil_log10 Sample.llGetPid Sample.printTwo
                Sample.rw0 0 = Some [].
Proof.
  destruct (empty_operand_skipped exact_ceil_log10 Sample.llGetPid
              (GlobalString 0) 0 2
              (Sample.llGetPid 0, Sample.llGetPid 1, Sample.llGetPid 2)
              true Sample.notOwned [4; 4]%Z (withString " x: " Sample.rw0))
    as (Hbody & _ & Hrun); [reflexivity | reflexivity |].
  split; [exact Hbody|].
  apply (Hrun Sample.printTwo Sample.rw0 success
              (Sample.finalState Sample.printTwo)).
  - vm_compute. reflexivity.
  - reflexivity.
Defined.

Lemma argument_ceiling_witness :
  exists rw',
    matchAndRewrite exact_ceil_log10 Sample.llGetPid Sample.printRank30
                    Sample.rw0 = Some (success, rw')
    /\ Forall (fun c => Z.of_nat (List.length (callArgs c))
                        <= kMaxPrintfOperands)%Z
              (newCalls Sample.rw0 rw')
    /\ map (fun c => List.length (callArgs c)) (newCalls Sample.rw0 rw') = [32].
Proof.
  eexists. split; [vm_compute; reflexivity|].
  split; [|vm_compute; reflexivity].
  apply (argument_ceiling exact_ceil_log10 Sample.llGetPid Sample.printRank30
                          Sample.rw0 _ success).
  vm_compute. reflexivity.
Defined.

Lemma index_truncated_witness :
  exists es,
    emittedFor exact_ceil_log10 Sample.llGetPid Sample.printRank30
               Sample.rw0 0 = Some es
    /\ List.length es = 1
    /\ forall i e,
        nth_error es i = Some e ->
        exists front back, fst e = Some (front ++ "... (truncated)" ++ back).
Proof.
  destruct (index_truncated exact_ceil_log10 Sample.llGetPid
              Sample.printRank30 Sample.rw0
              (Sample.finalState Sample.printRank30)
              success 0 Sample.rank30 (repeat 2%Z 30))
    as (es & Hes & Hlen & H).
  - vm_compute. reflexivity.
  - reflexivity.
  - reflexivity.
  - vm_compute. lia.
  - vm_compute. repeat constructor.
  - exists es. split; [exact Hes|]. split; [exact Hlen|].
    intros i e He.
    destruct (H i e He) as (pidsText & subs & rest & _ & _ & _ & Hfmt & _).
    exists ("pid (" ++ pidsText ++ ") " ++ "idx ("
            ++ String.concat ", " subs ++ ", "),
      (")" ++ rest).
    rewrite Hfmt. now rewrite !StrFacts.append_assoc.
Defined.

Lemma operand_tag_witness :
  exists es,
    emittedFor exact_ceil_log10 Sample.llGetPid Sample.printTwo
               Sample.rw0 1 = Some es
    /\ List.length es = 2
    /\ forall e,
        In e es ->
        exists fmt, fst e = Some fmt /\ Str.contains "(operand 1) " fmt.
Proof.
  destruct (operand_tag exact_ceil_log10 Sample.llGetPid Sample.printTwo
              Sample.rw0 (Sample.finalState Sample.printTwo) success 1
              Sample.tensor4x4)
    as (es & Hes & Hlen & _ & H).
  - vm_compute. reflexivity.
  - reflexivity.
  - exists es. split; [exact Hes|]. split; [exact Hlen|].
    intros e He. destruct (H e He) as (fmt & Hfmt & Hmany & _).
    exists fmt. split; [exact Hfmt|]. apply Hmany. cbn. lia.
Defined.

Lemma format_string_cached_witness :
  exists before after fmt,
    stateAtOperand exact_ceil_log10 Sample.llGetPid Sample.printOne
                   Sample.rw0 0 = Some before
    /\ stateAtOperand exact_ceil_log10 Sample.llGetPid Sample.printOne
                      Sample.rw0 1 = Some after
    /\ newGlobals before after = [fmt]
    /\ List.length (newCalls before after) = 2.
Proof.
  destruct (format_string_cached exact_ceil_log10 Sample.llGetPid
              Sample.printOne Sample.rw0 (Sample.finalState Sample.printOne)
              success 0 Sample.tensor4x4)
    as (before & after & fmt & Hb & Ha & Hg & _ & Hlen & _).
  - vm_compute. reflexivity.
  - reflexivity.
  - discriminate.
  - intros e e' [<-|[<-|[]]] [<-|[<-|[]]]; reflexivity.
  - intros ix ix' [<-|[<-|[]]] [<-|[<-|[]]]; reflexivity.
  - exists before, after, fmt. repeat split; assumption.
Defined.

Lemma formatting_deterministic_witness :
  exists rwB',
    matchAndRewrite exact_ceil_log10 Sample.llGetPid Sample.printOne
                    (Sample.finalState Sample.printOne)
    = Some (success, rwB')
    /\ map (formatText (Sample.finalState Sample.printOne))
           (newCalls Sample.rw0 (Sample.finalState Sample.printOne))
       = map (formatText rwB')
             (newCalls (Sample.finalState Sample.printOne) rwB').
Proof.
  destruct (formatting_deterministic exact_ceil_log10 Sample.llGetPid
              Sample.printOne Sample.rw0
              (Sample.finalState Sample.printOne)
              (Sample.finalState Sample.printOne) success)
    as (rwB' & Hrun & Htexts & _).
  - vm_compute. reflexivity.
  - exists rwB'. split; assumption.
Defined.

(** ** The widths of the dimensions *)

Module Log10.



End Log10.

Section DimWidths.

Variable libm : PrimFloat.float -> Z.


End DimWidths.



(** * Further properties of the lowering *)

(** ** The specifier resolver *)

Section ResolverProperties.

(** X1: the resolver fails exactly on the types it does not support:
    a type that is neither pointer, integer nor float in either mode,
    and, in decimal mode only, a float that is not 16, 32 or 64 bits
    wide. *)
Theorem unsupported_types (v : Value) (hex : bool) (width : option Z) :
  getFormatSubstr v hex width = None
  <-> (getType v = OtherType
       \/ (hex = false
           /\ exists k, getType v = FloatType k
                        /\ ~ In (floatWidth k) [16; 32; 64]%N)).
Proof.
  unfold getFormatSubstr.
  destruct (getType v) as [|k|sg w|] eqn:Et; cbn.
  - split; [discriminate|]. intros [H|(_ & k & H & _)]; discriminate.
  - destruct hex; cbn.
    + split; [discriminate|].
      intros [H|(H & _)]; discriminate.
    + destruct k; cbn; split; intros H;
        first [ discriminate H
              | reflexivity
              | right; split; [reflexivity|]; eexists; split; [reflexivity|];
                cbn; intros [E|[E|[E|[]]]]; discriminate E
              | destruct H as [H|(_ & k' & Hk & Hn)]; [discriminate H|];
                injection Hk as <-; exfalso; apply Hn; cbn; auto ].
  - destruct hex; cbn.
    + split; [discriminate|]. intros [H|(H & _)]; discriminate.
    + destruct sg; cbn; destruct (w =? 64)%N; split; try discriminate;
        intros [H|(_ & k & H & _)]; discriminate.
  - split; [now left | reflexivity].
Qed.

(** X2: an integer wider than 64 bits is printed, in decimal mode,
    with the conversion of the narrow integers: [i] when signed, [u]
    otherwise. *)
Theorem wide_integer_specifier (sg : Signedness) (w : N) (id : nat)
        (width : option Z) :
  (64 < w)%N ->
  getFormatSubstr (SSAValue (IntegerType sg w) id) false width
  = Some ("%" ++ widthText width
          ++ match sg with Signed => "i" | _ => "u" end).
Proof.
  intros Hw. unfold getFormatSubstr, widthText. cbn.
  replace (w =? 64)%N with false by (symmetry; apply N.eqb_neq; lia).
  destruct sg, width; cbn; now rewrite ?StrFacts.append_assoc.
Qed.

(** X3: a specifier holds exactly one conversion: one [%] character. *)
Theorem specifier_has_one_conversion (v : Value) (hex : bool)
        (width : option Z) (s : string) :
  getFormatSubstr v hex width = Some s ->
  Str.count "%" s = 1 /\ s <> "".
Proof.
  intros H. pose proof (Resolver.one_percent _ _ _ _ H) as Hc.
  split; [assumption|]. intros ->. discriminate.
Qed.

End ResolverProperties.

Lemma unsupported_types_witness :
  getFormatSubstr (SSAValue (FloatType F128) 0) false None = None
  /\ getFormatSubstr (SSAValue (FloatType F128) 0) true None
     = Some "0x%032llx".
Proof.
  split; [|reflexivity].
  apply (unsupported_types (SSAValue (FloatType F128) 0) false None).
  right. split; [reflexivity|]. exists F128. split; [reflexivity|].
  cbn. intros [E|[E|[E|[]]]]; discriminate E.
Defined.

Lemma wide_integer_specifier_witness :
  getFormatSubstr (SSAValue (IntegerType Signed 128) 0) false (Some 2%Z)
  = Some "%2i".
Proof.
  apply (wide_integer_specifier Signed 128 0 (Some 2%Z)). reflexivity.
Defined.

Lemma specifier_has_one_conversion_witness :
  Str.count "%" "0x%016llx" = 1 /\ "0x%016llx" <> "".
Proof.
  apply (specifier_has_one_conversion
           (SSAValue (IntegerType Signed 64) 0) true None).
  reflexivity.
Defined.

(** ** The request formatter *)

Section FormatterProperties.

Variable ceil_log10 : Z -> Z.
Variable llGetPid : nat -> Value.

Local Notation "'pids'" := (llGetPid 0, llGetPid 1, llGetPid 2).

(** X4: the lowering only appends. A lowered request reports
    [success], erases the print op, interns the prefix string in the
    first free slot of the string table and leaves every string and
    call that was there before in place, so that earlier calls keep
    their format text. *)
Theorem lowering_only_appends (op : PrintOp) (rw rw' : Rewriter)
        (r : LogicalResult) :
  matchAndRewrite ceil_log10 llGetPid op rw = Some (r, rw') ->
  r = success
  /\ erased rw' = true
  /\ (exists gs cs,
        globals rw' = (globals rw ++ getPrefix op :: gs)%list
        /\ calls rw' = (calls rw ++ cs)%list)
  /\ forall c s, formatText rw c = Some s -> formatText rw' c = Some s.
Proof.
  intros Hrun.
  assert (H : r = success /\ erased rw' = true
              /\ exists gs cs,
                  globals rw' = (globals rw ++ getPrefix op :: gs)%list
                  /\ calls rw' = (calls rw ++ cs)%list).
  { destruct (getOperands op) as [|o0 ops0] eqn:Eops.
    - rewrite Request.matchAndRewrite_no_operands in Hrun by assumption.
      destruct (pidSpecs pids); [|discriminate].
      injection Hrun as <- <-. cbn [globals calls erased].
      repeat split. eexists _, _. split; reflexivity.
    - rewrite Request.matchAndRewrite_operands in Hrun by congruence.
      destruct (planOperands ceil_log10 (List.length (getOperands op)) pids
                             (getHex op) (getOperands op) 0) as [lss|];
        [|discriminate].
      injection Hrun as <- <-. repeat split.
      destruct (Request.emitOperands_extends (prefixHandle rw) pids lss
                  (withString (getPrefix op) rw)) as (gs & cs & Hg & Hc).
      exists gs, cs. cbn [setErased globals calls]. rewrite Hg, Hc.
      cbn [withString globals calls]. now rewrite <- app_assoc. }
  destruct H as (Hr & He & gs & cs & Hg & Hc).
  repeat split; try assumption; [now exists gs, cs|].
  intros c s. apply Request.formatText_extends.
  exists (getPrefix op :: gs), cs. now split.
Qed.

(** X5: a scalar operand must unpack to exactly one element; with any
    other number of elements the loop body fails whatever the state,
    and so does the lowering of a request that holds such an operand. *)
Theorem scalar_needs_one_element (op : PrintOp) (rw : Rewriter) (k : nat)
        (o : Operand) :
  nth_error (getOperands op) k = Some o ->
  operandType o = ScalarType ->
  List.length (unpackLLElements o) <> 1 ->
  matchAndRewrite ceil_log10 llGetPid op rw = None
  /\ forall prefixStr i numOperands pid hex rw0,
      printOperand ceil_log10 prefixStr i numOperands pid hex o rw0 = None.
Proof.
  intros Hnth Ht Hlen.
  assert (Hplan : forall i numOperands pid hex,
             planOperand ceil_log10 i numOperands pid hex o = None).
  { intros. unfold planOperand. rewrite Ht.
    destruct (unpackLLElements o) as [|e [|e' es]]; try reflexivity.
    now contradiction Hlen. }
  split.
  - destruct (matchAndRewrite ceil_log10 llGetPid op rw) as [[r rw']|] eqn:E;
      [|reflexivity].
    destruct (Request.operand_run _ _ _ _ _ _ _ _ E Hnth)
      as (ls & before & Hp & _). rewrite Hplan in Hp. discriminate.
  - intros. now rewrite Tensor.printOperand_eq, Hplan.
Qed.

(** X6: a ranked operand with owned elements must come with one index
    per element, and its first index with one component per dimension
    of the shape; otherwise the assertions of [printTensor] fail and
    the request is not lowered. *)
Theorem index_contract_enforced (op : PrintOp) (rw : Rewriter) (k : nat)
        (o : Operand) (shape : list Z) :
  nth_error (getOperands op) k = Some o ->
  operandType o = RankedTensorType shape ->
  unpackLLElements o <> [] ->
  List.length (unpackLLElements o) <> List.length (emitIndices o)
  \/ (exists front rest,
         emitIndices o = front :: rest
         /\ List.length front <> List.length shape) ->
  matchAndRewrite ceil_log10 llGetPid op rw = None.
Proof.
  intros Hnth Ht Hne Hbad.
  destruct (matchAndRewrite ceil_log10 llGetPid op rw) as [[r rw']|] eqn:E;
    [|reflexivity].
  exfalso.
  destruct (Request.operand_run _ _ _ _ _ _ _ _ E Hnth)
    as (ls & before & Hp & _).
  apply Request.planOperand_elems in Hp as [_ Hc].
  specialize (Hc Hne). unfold tensorContract, operandIndices,
                         operandDimWidths in Hc.
  rewrite Ht in Hc.
  destruct (unpackLLElements o) as [|e es]; [discriminate|].
  destruct (emitIndices o) as [|front rest]; [discriminate|].
  apply andb_prop in Hc as [H1 H2].
  apply Nat.eqb_eq in H1. apply Nat.eqb_eq in H2.
  rewrite Total.dimWidthsLoop_length in H2.
  destruct Hbad as [Hbad|(f & r0 & Hf & Hbad)]; [contradiction|].
  injection Hf as <- <-. congruence.
Qed.

(** X7: an element the resolver cannot print is not skipped: the
    request that owns it is not lowered. *)
Theorem unprintable_element_fails (op : PrintOp) (rw : Rewriter) (k : nat)
        (o : Operand) (e : Value) :
  nth_error (getOperands op) k = Some o ->
  In e (unpackLLElements o) ->
  getFormatSubstr e (getHex op) None = None ->
  matchAndRewrite ceil_log10 llGetPid op rw = None.
Proof.
  intros Hnth Hin Hbad.
  destruct (matchAndRewrite ceil_log10 llGetPid op rw) as [[r rw']|] eqn:E;
    [|reflexivity].
  exfalso.
  destruct (Request.operand_emissions _ _ _ _ _ _ _ _ E Hnth)
    as (ls & Hplan & _).
  destruct (Request.planElems_nth _ _ _ _ _ _ _ _ _ Hplan) as [Hlen Hls].
  destruct (In_nth_error _ _ Hin) as [j Hj].
  destruct (nth_error ls j) as [l|] eqn:El.
  - destruct (Hls _ _ El) as (e' & index & He' & _ & Hl).
    rewrite Hj in He'. injection He' as <-.
    apply Request.planLine_fields in Hl
      as (_ & _ & _ & _ & sub & _ & _ & Hsub & _).
    congruence.
  - apply nth_error_None in El.
    assert (j < List.length (unpackLLElements o))
      by (apply nth_error_Some; congruence).
    lia.
Qed.

End FormatterProperties.

Lemma lowering_only_appends_witness :
  erased (Sample.finalState Sample.printThree) = true
  /\ forall c s,
      formatText (Sample.finalState Sample.printOne) c = Some s ->
      exists rw',
        matchAndRewrite exact_ceil_log10 Sample.llGetPid Sample.printThree
                        (Sample.finalState Sample.printOne)
        = Some (success, rw')
        /\ formatText rw' c = Some s.
Proof.
  split.
  - apply (lowering_only_appends exact_ceil_log10 Sample.llGetPid
             Sample.printThree Sample.rw0
             (Sample.finalState Sample.printThree) success).
    vm_compute. reflexivity.
  - intros c s Hc.
    destruct (matchAndRewrite exact_ceil_log10 Sample.llGetPid
                Sample.printThree (Sample.finalState Sample.printOne))
      as [[r rw']|] eqn:E; [|vm_compute in E; discriminate E].
    destruct (lowering_only_appends exact_ceil_log10 Sample.llGetPid
                Sample.printThree (Sample.finalState Sample.printOne)
                rw' r E) as (-> & _ & _ & Hkeep).
    exists rw'. split; [reflexivity | now apply Hkeep].
Defined.

Lemma scalar_needs_one_element_witness :
  matchAndRewrite exact_ceil_log10 Sample.llGetPid
    {| getPrefix := " s: "; getOperands := [Sample.scalarOfTwo];
       getHex := false |} Sample.rw0
  = None.
Proof.
  apply (scalar_needs_one_element exact_ceil_log10 Sample.llGetPid
           {| getPrefix := " s: "; getOperands := [Sample.scalarOfTwo];
              getHex := false |} Sample.rw0 0 Sample.scalarOfTwo).
  - reflexivity.
  - reflexivity.
  - discriminate.
Defined.

Lemma index_contract_enforced_witness :
  matchAndRewrite exact_ceil_log10 Sample.llGetPid
    {| getPrefix := " x: "; getOperands := [Sample.wrongRank];
       getHex := false |} Sample.rw0
  = None.
Proof.
  apply (index_contract_enforced exact_ceil_log10 Sample.llGetPid
           {| getPrefix := " x: "; getOperands := [Sample.wrongRank];
              getHex := false |} Sample.rw0 0 Sample.wrongRank [4; 4]%Z).
  - reflexivity.
  - reflexivity.
  - discriminate.
  - right. eexists _, _. split; [reflexivity|]. discriminate.
Defined.

Lemma unprintable_element_fails_witness :
  matchAndRewrite exact_ceil_log10 Sample.llGetPid
    {| getPrefix := " x: ";
       getOperands := [Sample.tensor4x4; Sample.unprintable];
       getHex := true |} Sample.rw0
  = None.
Proof.
  apply (unprintable_element_fails exact_ceil_log10 Sample.llGetPid
           {| getPrefix := " x: ";
              getOperands := [Sample.tensor4x4; Sample.unprintable];
              getHex := true |} Sample.rw0 1 Sample.unprintable
           (SSAValue OtherType 0)).
  - reflexivity.
  - now left.
  - reflexivity.
Defined.

(** ** What a lowered request adds, in numbers and in order *)

Module Output.

Import Request.

Lemma planOperands_lengths ceil_log10 numOperands pid hex :
  forall operands i lss,
    planOperands ceil_log10 numOperands pid hex operands i = Some lss ->
    Forall2 (fun o ls => List.length ls = List.length (unpackLLElements o))
            operands lss.
Proof.
  induction operands as [|o operands IH]; intros i lss H; cbn in H.
  - injection H as <-. constructor.
  - destruct (planOperand ceil_log10 i numOperands pid hex o) as [ls|] eqn:Eo;
      [|discriminate].
    destruct (planOperands ceil_log10 numOperands pid hex operands (S i))
      as [lss'|] eqn:E; [|discriminate].
    injection H as <-. constructor; [|eauto].
    apply planOperand_elems in Eo as [Eo _].
    now apply planElems_nth in Eo as [Hlen _].
Qed.

Lemma emitOperands_globals p pid lss :
  forall rw,
    globals (emitOperands p pid lss rw)
    = (globals rw
       ++ flat_map (fun ls => match ls with
                              | [] => []
                              | l :: _ => [lineFormat l]
                              end) lss)%list.
Proof.
  induction lss as [|ls lss IH]; intros rw.
  - cbn. now rewrite app_nil_r.
  - change (emitOperands p pid (ls :: lss) rw)
      with (emitOperands p pid lss (emitOperand p pid ls rw)).
    rewrite IH, emitOperand_globals, <- app_assoc. reflexivity.
Qed.

Lemma lines_total (operands : list Operand) (lss : list (list Line)) :
  Forall2 (fun o ls => List.length ls = List.length (unpackLLElements o))
          operands lss ->
  List.length (List.concat lss)
  = list_sum (map (fun o => List.length (unpackLLElements o)) operands).
Proof.
  induction 1 as [|o ls operands lss Hlen _ IH]; [reflexivity|].
  cbn. rewrite length_app, Hlen, IH. reflexivity.
Qed.

Lemma strings_total (operands : list Operand) (lss : list (list Line)) :
  Forall2 (fun o ls => List.length ls = List.length (unpackLLElements o))
          operands lss ->
  List.length (flat_map (fun ls => match ls with
                                   | [] => []
                                   | l :: _ => [lineFormat l]
                                   end) lss)
  = List.length
      (filter (fun o => negb (Nat.eqb (List.length (unpackLLElements o)) 0))
              operands).
Proof.
  induction 1 as [|o ls operands lss Hlen _ IH]; [reflexivity|].
  cbn [flat_map filter]. rewrite length_app, IH.
  destruct ls as [|l ls]; cbn in Hlen; rewrite <- Hlen; reflexivity.
Qed.

Lemma combine_map_app {A B C} (f : A -> B) (g : A -> C) l bs cs :
  combine (map f l ++ bs) (map g l ++ cs)
  = (map (fun a => (f a, g a)) l ++ combine bs cs)%list.
Proof. induction l as [|a l IH]; cbn; [reflexivity | now rewrite IH]. Qed.

Lemma combine_of_maps {A B C} (f : A -> B) (g : A -> C) l :
  map (fun a => (f a, g a)) l = combine (map f l) (map g l).
Proof. induction l as [|a l IH]; cbn; [reflexivity | now rewrite IH]. Qed.

(** The calls of a list of plans, operand by operand. *)
Lemma combine_plan p pid lss :
  combine (planTexts lss) (map (lineArgs p pid) (List.concat lss))
  = List.concat
      (map (fun ls =>
              map (fun l => (option_map lineFormat (hd_error ls),
                             lineArgs p pid l)) ls) lss).
Proof.
  induction lss as [|ls lss IH]; [reflexivity|].
  cbn [planTexts flat_map List.concat map]. fold (planTexts lss).
  rewrite map_app, combine_map_app, IH. reflexivity.
Qed.

(** The calls of an operand follow its elements: call [i] carries
    element [i] and the coordinates of index [i]. *)
Lemma emissions_in_element_order ceil_log10 llGetPid op rw r rw' k o :
  matchAndRewrite ceil_log10 llGetPid op rw = Some (r, rw') ->
  nth_error (getOperands op) k = Some o ->
  exists es,
    emittedFor ceil_log10 llGetPid op rw k = Some es
    /\ List.length es = List.length (unpackLLElements o)
    /\ forall i e,
        nth_error es i = Some e ->
        exists elem index,
          nth_error (unpackLLElements o) i = Some elem
          /\ nth_error (operandIndices o) i = Some index
          /\ snd e = ([llGetPid 0; llGetPid 1; llGetPid 2]
                      ++ firstn maxAllowedRank index
                      ++ [prefixHandle rw; elem])%list.
Proof.
  intros Hrun Hnth.
  destruct (operand_emissions _ _ _ _ _ _ _ _ Hrun Hnth)
    as (ls & Hplan & Hem).
  destruct (planElems_nth _ _ _ _ _ _ _ _ _ Hplan) as [Hlen Hls].
  eexists. split; [exact Hem|]. split; [now rewrite length_map|].
  intros i e Hi. rewrite nth_error_map in Hi.
  destruct (nth_error ls i) as [l|] eqn:El; [|discriminate].
  injection Hi as <-. cbn [snd].
  destruct (Hls _ _ El) as (elem & index & He & Hix & Hl).
  exists elem, index. cbn [Nat.add] in Hix.
  apply planLine_fields in Hl as (Hc & Hel & _).
  repeat split; try assumption.
  unfold lineArgs. cbn [pidValues]. now rewrite Hc, Hel.
Qed.

End Output.

Section OutputProperties.

Variable ceil_log10 : Z -> Z.
Variable llGetPid : nat -> Value.

Local Notation "'pids'" := (llGetPid 0, llGetPid 1, llGetPid 2).

(** X8: a lowered request with operands emits one call per owned
    element, all operands together, and registers, besides the prefix,
    one format string per operand that owns at least one element. *)
Theorem call_and_string_counts (op : PrintOp) (rw rw' : Rewriter)
        (r : LogicalResult) :
  matchAndRewrite ceil_log10 llGetPid op rw = Some (r, rw') ->
  getOperands op <> [] ->
  List.length (newCalls rw rw')
  = list_sum (map (fun o => List.length (unpackLLElements o))
                  (getOperands op))
  /\ List.length (newGlobals rw rw')
     = 1 + List.length
             (filter (fun o =>
                        negb (Nat.eqb (List.length (unpackLLElements o)) 0))
                     (getOperands op)).
Proof.
  intros Hrun Hne.
  rewrite Request.matchAndRewrite_operands in Hrun by assumption.
  destruct (planOperands ceil_log10 (List.length (getOperands op)) pids
                         (getHex op) (getOperands op) 0) as [lss|] eqn:Ep;
    [|discriminate].
  injection Hrun as _ <-.
  pose proof (Output.planOperands_lengths _ _ _ _ _ _ _ Ep) as Hlens.
  split.
  - change (newCalls rw (setErased ?x))
      with (newCalls (withString (getPrefix op) rw) x).
    destruct (Request.emitOperands_shape (prefixHandle rw) pids lss
                (withString (getPrefix op) rw)) as [_ Ha].
    rewrite <- (length_map callArgs), Ha, length_map.
    now apply Output.lines_total.
  - unfold newGlobals. cbn [setErased globals].
    rewrite Output.emitOperands_globals. cbn [withString globals].
    rewrite <- app_assoc, Request.skipn_length_app.
    cbn [app List.length Nat.add]. f_equal. now apply Output.strings_total.
Qed.

(** X9: the calls of a lowered request are those of its operands, in
    the order of the operands, and within an operand in the order of
    its elements: call [i] of operand [k] carries element [i] of that
    operand and the coordinates of its index [i]; nothing else is
    emitted. *)
Theorem calls_by_operand (op : PrintOp) (rw rw' : Rewriter)
        (r : LogicalResult) :
  matchAndRewrite ceil_log10 llGetPid op rw = Some (r, rw') ->
  getOperands op <> [] ->
  exists ess,
    List.length ess = List.length (getOperands op)
    /\ (forall k es,
           nth_error ess k = Some es ->
           emittedFor ceil_log10 llGetPid op rw k = Some es
           /\ exists o,
               nth_error (getOperands op) k = Some o
               /\ List.length es = List.length (unpackLLElements o)
               /\ forall i e,
                   nth_error es i = Some e ->
                   exists elem index,
                     nth_error (unpackLLElements o) i = Some elem
                     /\ nth_error (operandIndices o) i = Some index
                     /\ snd e = ([llGetPid 0; llGetPid 1; llGetPid 2]
                                 ++ firstn maxAllowedRank index
                                 ++ [prefixHandle rw; elem])%list)
    /\ map (emission rw') (newCalls rw rw') = List.concat ess.
Proof.
  intros Hrun Hne.
  pose proof Hrun as Hrun'.
  rewrite Request.matchAndRewrite_operands in Hrun' by assumption.
  destruct (planOperands ceil_log10 (List.length (getOperands op)) pids
                         (getHex op) (getOperands op) 0) as [lss|] eqn:Ep;
    [|discriminate].
  injection Hrun' as _ <-.
  exists (map (fun ls =>
                 map (fun l => (option_map lineFormat (hd_error ls),
                                lineArgs (prefixHandle rw) pids l)) ls) lss).
  split; [|split].
  - rewrite length_map. eapply Request.planOperands_length; eassumption.
  - intros k es Hk. rewrite nth_error_map in Hk.
    destruct (nth_error lss k) as [ls|] eqn:El; [|discriminate].
    injection Hk as <-.
    assert (Hlt : k < List.length (getOperands op)).
    { rewrite <- (Request.planOperands_length _ _ _ _ _ _ _ Ep).
      apply nth_error_Some. congruence. }
    destruct (nth_error (getOperands op) k) as [o|] eqn:Eo;
      [|apply nth_error_None in Eo; lia].
    destruct (Request.planOperands_split _ _ _ _ _ _ _ _ Ep Eo)
      as (ls1 & Hp1 & Hk1 & _).
    destruct (Request.operand_run _ _ _ _ _ _ _ _ Hrun Eo)
      as (ls2 & before & Hp2 & _ & _ & _ & _ & Hem).
    assert (E1 : ls1 = ls) by congruence.
    assert (E2 : ls2 = ls1) by congruence.
    rewrite E2, E1 in Hem. split; [exact Hem|].
    exists o. split; [reflexivity|].
    destruct (Output.emissions_in_element_order _ _ _ _ _ _ _ _ Hrun Eo)
      as (es' & Hem' & Hlen & Horder).
    rewrite Hem in Hem'. injection Hem' as <-. now split.
  - change (newCalls rw (setErased ?x))
      with (newCalls (withString (getPrefix op) rw) x).
    destruct (Request.emitOperands_shape (prefixHandle rw) pids lss
                (withString (getPrefix op) rw)) as [Ht Ha].
    unfold emission.
    rewrite (Output.combine_of_maps
               (formatText (setErased _)) callArgs).
    change (formatText (setErased ?x)) with (formatText x).
    rewrite Ht, Ha. apply Output.combine_plan.
Qed.

End OutputProperties.

Lemma call_and_string_counts_witness :
  List.length (newCalls Sample.rw0 (Sample.finalState Sample.printThree)) = 3
  /\ List.length (newGlobals Sample.rw0 (Sample.finalState Sample.printThree))
     = 3.
Proof.
  apply (call_and_string_counts exact_ceil_log10 Sample.llGetPid
           Sample.printThree Sample.rw0
           (Sample.finalState Sample.printThree) success).
  - vm_compute. reflexivity.
  - discriminate.
Defined.

Lemma calls_by_operand_witness :
  exists ess,
    List.length ess = 3
    /\ (forall k es,
           nth_error ess k = Some es ->
           emittedFor exact_ceil_log10 Sample.llGetPid Sample.printThree
                      Sample.rw0 k = Some es
           /\ exists o,
               nth_error (getOperands Sample.printThree) k = Some o
               /\ List.length es = List.length (unpackLLElements o))
    /\ map (emission (Sample.finalState Sample.printThree))
           (newCalls Sample.rw0 (Sample.finalState Sample.printThree))
       = List.concat ess.
Proof.
  destruct (calls_by_operand exact_ceil_log10 Sample.llGetPid
              Sample.printThree Sample.rw0
              (Sample.finalState Sample.printThree) success)
    as (ess & Hlen & Hops & Hall).
  - vm_compute. reflexivity.
  - discriminate.
  - exists ess. split; [exact Hlen|]. split; [|exact Hall].
    intros k es Hk. destruct (Hops k es Hk) as (Hem & o & Ho & Hl & _).
    split; [exact Hem|]. exists o. now split.
Defined.

(** ** The text of a line *)

Module LineFacts.

Import StrFacts Loops.

Lemma spec_no_dot v hex width s :
  getFormatSubstr v hex width = Some s -> Str.occurs "." s = false.
Proof.
  Resolver.resolve_cases;
    repeat (cbn; rewrite ?occurs_append, ?occurs_of_int,
                         ?occurs_of_unsigned by reflexivity);
    reflexivity.
Qed.

Lemma pidSpecs_inv pid t :
  pidSpecs pid = Some t ->
  exists s0 s1 s2,
    getFormatSubstr (fst (fst pid)) false None = Some s0
    /\ getFormatSubstr (snd (fst pid)) false None = Some s1
    /\ getFormatSubstr (snd pid) false None = Some s2
    /\ t = s0 ++ ", " ++ s1 ++ ", " ++ s2.
Proof.
  destruct pid as [[x y] z]. unfold pidSpecs. cbn [fst snd].
  destruct (getFormatSubstr x false None) as [s0|]; [|discriminate].
  destruct (getFormatSubstr y false None) as [s1|]; [|discriminate].
  destruct (getFormatSubstr z false None) as [s2|]; [|discriminate].
  intros H. exists s0, s1, s2. repeat split. congruence.
Qed.

Lemma pidSpecs_no_dot pid t :
  pidSpecs pid = Some t -> Str.occurs "." t = false.
Proof.
  intros H. destruct (pidSpecs_inv _ _ H) as (s0 & s1 & s2 & H0 & H1 & H2 & ->).
  rewrite !occurs_append.
  rewrite (spec_no_dot _ _ _ _ H0), (spec_no_dot _ _ _ _ H1),
    (spec_no_dot _ _ _ _ H2).
  reflexivity.
Qed.

Lemma indexSpecs_no_dot dimWidths index dim subs :
  indexSpecs dimWidths index dim = Some subs ->
  Forall (fun sub => Str.occurs "." sub = false) subs.
Proof.
  intros H. apply indexSpecs_Forall2 in H.
  induction H as [|v sub index subs (w & _ & Hw) _ IH]; constructor;
    [eapply spec_no_dot; eassumption | assumption].
Qed.

(** A line whose index is within the cutoff holds no full stop. *)
Lemma lineText_no_dot pid pidsText dimWidths index dim subs n operand
      numOperands v hex width sub :
  pidSpecs pid = Some pidsText ->
  indexSpecs dimWidths index dim = Some subs ->
  getFormatSubstr v hex width = Some sub ->
  n <= maxAllowedRank ->
  Str.occurs "." (lineText pidsText subs n operand numOperands sub) = false.
Proof.
  intros Hp Hi Hs Hn. unfold lineText, truncationTail.
  replace (maxAllowedRank <? n)%nat with false
    by (symmetry; apply Nat.ltb_ge; assumption).
  rewrite !occurs_append.
  rewrite (pidSpecs_no_dot _ _ Hp), (spec_no_dot _ _ _ _ Hs).
  rewrite (occurs_concat "." ", " subs eq_refl (indexSpecs_no_dot _ _ _ _ Hi)).
  destruct (1 <? numOperands)%nat; [|reflexivity].
  unfold operandTag.
  rewrite !occurs_append, occurs_of_unsigned by reflexivity. reflexivity.
Qed.

(** The specifier at position [d] is that of component [d], padded to
    the width of dimension [dim + d]. *)
Lemma indexSpecs_nth dimWidths :
  forall index dim subs,
    indexSpecs dimWidths index dim = Some subs ->
    forall d v,
      nth_error index d = Some v ->
      exists w sub,
        nth_error dimWidths (dim + d) = Some w
        /\ nth_error subs d = Some sub
        /\ getFormatSubstr v false (Some w) = Some sub.
Proof.
  induction index as [|v0 index IH]; intros dim subs H d v Hd;
    [destruct d; discriminate|].
  cbn in H.
  destruct (nth_error dimWidths dim) as [w|] eqn:Ew; [|discriminate].
  destruct (getFormatSubstr v0 false (Some w)) as [sub|] eqn:Es;
    [|discriminate].
  destruct (indexSpecs dimWidths index (S dim)) as [subs'|] eqn:E;
    [|discriminate].
  injection H as <-. destruct d as [|d]; cbn in Hd.
  - injection Hd as <-. exists w, sub. now rewrite Nat.add_0_r.
  - destruct (IH _ _ E d v Hd) as (w' & sub' & Hw' & Hsub' & Hv).
    exists w', sub'. rewrite Nat.add_succ_r. now repeat split.
Qed.

(** Whatever is printable in decimal mode is printable in hex mode. *)
Lemma decimal_then_hex v sub :
  getFormatSubstr v false None = Some sub ->
  exists subHex, getFormatSubstr v true None = Some subHex.
Proof.
  unfold getFormatSubstr.
  destruct (getType v) as [|k|sg w|]; cbn; intros H;
    [eauto | | | discriminate].
  - destruct (32 <? floatWidth k)%N; eauto.
  - destruct (32 <? w)%N; eauto.
Qed.

Lemma lineText_split pidsText subs n operand numOperands sub :
  lineText pidsText subs n operand numOperands sub
  = ("pid (" ++ pidsText ++ ") "
     ++ "idx (" ++ String.concat ", " subs ++ truncationTail maxAllowedRank n
     ++ ")" ++ "%s"
     ++ (if (1 <? numOperands)%nat then operandTag operand else ""))
    ++ sub.
Proof. unfold lineText. now rewrite !append_assoc. Qed.

End LineFacts.

Section LineProperties.

Variable ceil_log10 : Z -> Z.
Variable llGetPid : nat -> Value.

Local Notation "'pids'" := (llGetPid 0, llGetPid 1, llGetPid 2).

(** X10: an operand of rank at most 27 is printed with its whole
    index: the index section holds one specifier per dimension, the
    one at position [d] being that of component [d] padded to the
    width of dimension [d]; the format string holds no truncation
    marker, and every call carries all the coordinates of its
    element. *)
Theorem index_printed_in_full (op : PrintOp) (rw rw' : Rewriter)
        (r : LogicalResult) (k : nat) (o : Operand) (shape : list Z) :
  matchAndRewrite ceil_log10 llGetPid op rw = Some (r, rw') ->
  nth_error (getOperands op) k = Some o ->
  operandType o = RankedTensorType shape ->
  List.length shape <= maxAllowedRank ->
  Forall (fun index => List.length index = List.length shape)
         (emitIndices o) ->
  exists es,
    emittedFor ceil_log10 llGetPid op rw k = Some es
    /\ forall i e,
        nth_error es i = Some e ->
        exists pidsText subs rest index0 elem index,
          fst e = Some ("pid (" ++ pidsText ++ ") "
                        ++ "idx (" ++ String.concat ", " subs ++ ")" ++ rest)
          /\ List.length subs = List.length shape
          /\ nth_error (emitIndices o) 0 = Some index0
          /\ (forall d v,
                nth_error index0 d = Some v ->
                exists w sub,
                  nth_error (operandDimWidths ceil_log10 o) d = Some w
                  /\ nth_error subs d = Some sub
                  /\ getFormatSubstr v false (Some w) = Some sub)
          /\ (forall fmt, fst e = Some fmt ->
                          ~ Str.contains "... (truncated)" fmt)
          /\ nth_error (unpackLLElements o) i = Some elem
          /\ nth_error (emitIndices o) i = Some index
          /\ snd e = ([llGetPid 0; llGetPid 1; llGetPid 2]
                      ++ index ++ [prefixHandle rw; elem])%list.
Proof.
  intros Hrun Hnth Ht Hrank Hall.
  destruct (Request.operand_emissions _ _ _ _ _ _ _ _ Hrun Hnth)
    as (ls & Hplan & Hem).
  destruct (Request.planElems_nth _ _ _ _ _ _ _ _ _ Hplan) as [Hlen Hls].
  assert (Hix : operandIndices o = emitIndices o)
    by (unfold operandIndices; now rewrite Ht).
  rewrite Hix in Hls.
  eexists. split; [exact Hem|].
  intros i e Hi. rewrite nth_error_map in Hi.
  destruct (nth_error ls i) as [l|] eqn:El; [|discriminate].
  injection Hi as <-. cbn [fst snd].
  destruct ls as [|l0 ls']; [destruct i; discriminate|].
  cbn [hd_error option_map].
  destruct (Hls 0 l0 eq_refl) as (elem0 & index0 & _ & Hix0 & Hl0).
  destruct (Hls _ _ El) as (elem & index & He & Hixi & Hl).
  cbn [Nat.add] in Hix0, Hixi.
  assert (Hlen0 : List.length index0 = List.length shape).
  { eapply Forall_forall in Hall; [exact Hall|].
    eapply nth_error_In; eassumption. }
  assert (Hleni : List.length index = List.length shape).
  { eapply Forall_forall in Hall; [exact Hall|].
    eapply nth_error_In; eassumption. }
  apply Request.planLine_fields in Hl0
    as (_ & _ & pidsText & subs & sub & Hp & Hsubs & Hsub & Hfmt).
  apply Request.planLine_fields in Hl as (Hc & Hel & _).
  rewrite firstn_all2 in Hsubs by lia.
  rewrite firstn_all2 in Hc by lia.
  exists pidsText, subs,
    ("%s" ++ (if (1 <? List.length (getOperands op))%nat
              then operandTag k else "") ++ sub),
    index0, elem, index.
  split; [|split; [|split; [|split; [|split; [|split; [|split]]]]]];
    try assumption.
  - rewrite Hfmt. unfold lineText, truncationTail.
    replace (maxAllowedRank <? List.length index0)%nat with false
      by (symmetry; apply Nat.ltb_ge; lia).
    reflexivity.
  - rewrite (Loops.indexSpecs_length _ _ _ _ Hsubs). assumption.
  - intros d v Hd.
    destruct (LineFacts.indexSpecs_nth _ _ _ _ Hsubs d v Hd)
      as (w & sub' & Hw & Hs' & Hv).
    exists w, sub'. now repeat split.
  - intros fmt Hf Hcontains. injection Hf as <-. rewrite Hfmt in Hcontains.
    apply StrFacts.contains_occurs with (c := "."%char) in Hcontains;
      [|reflexivity].
    rewrite (LineFacts.lineText_no_dot _ _ _ _ _ _ _ _ _ _ _ _ _
               Hp Hsubs Hsub) in Hcontains by lia.
    discriminate.
  - unfold lineArgs. cbn [pidValues]. now rewrite Hc, Hel.
Qed.

(** X11: a scalar operand is printed as one line with an empty index:
    the format string is the program-id part, ["idx ()"], [%s], the
    operand tag when the request has several operands, and the
    specifier of the element; the arguments are the program ids, the
    prefix string and the element. *)
Theorem scalar_operand_line (op : PrintOp) (rw rw' : Rewriter)
        (r : LogicalResult) (k : nat) (o : Operand) :
  matchAndRewrite ceil_log10 llGetPid op rw = Some (r, rw') ->
  nth_error (getOperands op) k = Some o ->
  operandType o = ScalarType ->
  exists elem s0 s1 s2 sub,
    unpackLLElements o = [elem]
    /\ getFormatSubstr (llGetPid 0) false None = Some s0
    /\ getFormatSubstr (llGetPid 1) false None = Some s1
    /\ getFormatSubstr (llGetPid 2) false None = Some s2
    /\ getFormatSubstr elem (getHex op) None = Some sub
    /\ emittedFor ceil_log10 llGetPid op rw k
       = Some [(Some ("pid (" ++ s0 ++ ", " ++ s1 ++ ", " ++ s2 ++ ") "
                      ++ "idx (" ++ ")" ++ "%s"
                      ++ (if (1 <? List.length (getOperands op))%nat
                          then "(operand " ++ Str.of_unsigned (N.of_nat k)
                               ++ ") "
                          else "")
                      ++ sub),
                [llGetPid 0; llGetPid 1; llGetPid 2; prefixHandle rw; elem])].
Proof.
  intros Hrun Hnth Ht.
  destruct (Request.operand_run _ _ _ _ _ _ _ _ Hrun Hnth)
    as (ls & before & Hplan & _ & _ & _ & _ & Hem).
  unfold planOperand, planTensor, operandIndices, operandDimWidths in Hplan.
  rewrite Ht in Hplan.
  destruct (unpackLLElements o) as [|elem [|elem' es]] eqn:Ee;
    try discriminate.
  cbn [tensorContract List.length Nat.eqb andb planElems nth_error] in Hplan.
  destruct (planLine k (List.length (getOperands op)) elem pids [] []
                     (getHex op)) as [l|] eqn:El; [|discriminate].
  injection Hplan as <-.
  apply Request.planLine_fields in El
    as (Hc & Hel & pidsText & subs & sub & Hp & Hsubs & Hsub & Hfmt).
  cbn in Hsubs. injection Hsubs as <-.
  destruct (LineFacts.pidSpecs_inv _ _ Hp) as (s0 & s1 & s2 & H0 & H1 & H2 & ->).
  cbn [fst snd] in H0, H1, H2.
  exists elem, s0, s1, s2, sub. repeat split; try assumption.
  rewrite Hem. cbn [map hd_error option_map]. unfold lineArgs.
  rewrite Hfmt, Hc, Hel, firstn_nil. cbn [pidValues app].
  unfold lineText, truncationTail, operandTag. cbn [String.concat].
  replace (maxAllowedRank <? List.length (@nil Value))%nat with false
    by reflexivity.
  destruct (1 <? List.length (getOperands op))%nat;
    repeat (rewrite ?StrFacts.append_assoc; cbn [String.append]);
    reflexivity.
Qed.

(** X12: when the index tuples of an operand have one length, every
    call emitted for it carries exactly as many arguments as its format
    string holds conversions. *)
Theorem conversions_match_arguments (op : PrintOp) (rw rw' : Rewriter)
        (r : LogicalResult) (k : nat) (o : Operand) :
  matchAndRewrite ceil_log10 llGetPid op rw = Some (r, rw') ->
  nth_error (getOperands op) k = Some o ->
  (forall ix ix', In ix (operandIndices o) -> In ix' (operandIndices o) ->
                  List.length ix = List.length ix') ->
  exists es,
    emittedFor ceil_log10 llGetPid op rw k = Some es
    /\ forall e,
        In e es ->
        exists fmt, fst e = Some fmt
                    /\ Str.count "%" fmt = List.length (snd e).
Proof.
  intros Hrun Hnth Hsame.
  destruct (Request.operand_emissions _ _ _ _ _ _ _ _ Hrun Hnth)
    as (ls & Hplan & Hem).
  destruct (Request.planElems_nth _ _ _ _ _ _ _ _ _ Hplan) as [Hlen Hls].
  eexists. split; [exact Hem|].
  intros e Hin. apply in_map_iff in Hin as (l & <- & Hl). cbn [fst snd].
  destruct ls as [|l0 ls']; [contradiction|]. cbn [hd_error option_map].
  destruct (Hls 0 l0 eq_refl) as (elem0 & index0 & _ & Hix0 & Hl0).
  destruct (In_nth_error _ _ Hl) as [j Hj].
  destruct (Hls _ _ Hj) as (elem & index & _ & Hixj & Hlj).
  apply Request.planLine_fields in Hl0
    as (_ & _ & pidsText & subs & sub & Hp & Hsubs & Hsub & Hfmt).
  apply Request.planLine_fields in Hlj as (Hc & _ & _).
  exists (lineFormat l0). split; [reflexivity|].
  rewrite Hfmt.
  rewrite (Loops.lineText_percent _ _ _ _ _ _ _ _ _ _ _ _ _ Hp Hsubs Hsub).
  rewrite Request.lineArgs_length, Hc.
  rewrite (Loops.indexSpecs_length _ _ _ _ Hsubs), !length_firstn.
  rewrite (Hsame index0 index); [reflexivity| |];
    eapply nth_error_In; eassumption.
Qed.

(** X13: the display mode only changes the specifier of the element.
    A line that is built in decimal mode is built in hex mode too, with
    the same arguments and the same text up to that specifier. *)
Theorem hex_changes_value_specifier_only (prefixStr : Value)
        (operand numOperands : nat) (elem : Value) (pid : PidArray)
        (index : list Value) (dimWidths : list Z)
        (fmt : string) (args : list Value) :
  formatLine prefixStr operand numOperands elem pid index dimWidths false
  = Some (fmt, args) ->
  exists head sub subHex,
    getFormatSubstr elem false None = Some sub
    /\ getFormatSubstr elem true None = Some subHex
    /\ fmt = head ++ sub
    /\ formatLine prefixStr operand numOperands elem pid index dimWidths true
       = Some (head ++ subHex, args).
Proof.
  intros H. rewrite Loops.formatLine_eq in H |- *.
  destruct (pidSpecs pid) as [pidsText|]; [|discriminate].
  destruct (indexSpecs dimWidths (firstn maxAllowedRank index) 0)
    as [subs|]; [|discriminate].
  destruct (getFormatSubstr elem false None) as [sub|] eqn:Es;
    [|discriminate].
  injection H as <- <-.
  destruct (LineFacts.decimal_then_hex _ _ Es) as [subHex ->].
  eexists _, sub, subHex. repeat split.
  - apply LineFacts.lineText_split.
  - now rewrite LineFacts.lineText_split.
Qed.

End LineProperties.

Lemma index_printed_in_full_witness :
  exists es,
    emittedFor exact_ceil_log10 Sample.llGetPid Sample.printRank27
               Sample.rw0 0 = Some es
    /\ forall i e,
        nth_error es i = Some e ->
        (forall fmt, fst e = Some fmt -> ~ Str.contains "... (truncated)" fmt)
        /\ List.length (snd e) = 32.
Proof.
  destruct (index_printed_in_full exact_ceil_log10 Sample.llGetPid
              Sample.printRank27 Sample.rw0
              (Sample.finalState Sample.printRank27) success 0
              Sample.rank27 (repeat 2%Z 27))
    as (es & Hes & H).
  - vm_compute. reflexivity.
  - reflexivity.
  - reflexivity.
  - vm_compute. lia.
  - vm_compute. repeat constructor.
  - exists es. split; [exact Hes|]. intros i e He.
    destruct (H i e He)
      as (pidsText & subs & rest & index0 & elem & index
          & _ & _ & _ & _ & Hno & _ & Hix & Hargs).
    split; [exact Hno|]. rewrite Hargs.
    destruct i as [|i]; cbn in Hix; [|destruct i; discriminate].
    injection Hix as <-. reflexivity.
Defined.

Lemma scalar_operand_line_witness :
  emittedFor exact_ceil_log10 Sample.llGetPid Sample.printScalar Sample.rw0 0
  = Some [(Some "pid (%u, %u, %u) idx ()%s%lli",
           [Sample.llGetPid 0; Sample.llGetPid 1; Sample.llGetPid 2;
            GlobalString 0; SSAValue (IntegerType Signed 64) 5])].
Proof.
  destruct (scalar_operand_line exact_ceil_log10 Sample.llGetPid
              Sample.printScalar Sample.rw0
              (Sample.finalState Sample.printScalar) success 0 Sample.scalar)
    as (elem & s0 & s1 & s2 & sub & He & H0 & H1 & H2 & Hsub & Hem).
  - vm_compute. reflexivity.
  - reflexivity.
  - reflexivity.
  - rewrite Hem. cbn in He. injection He as <-.
    cbn in H0, H1, H2, Hsub.
    injection H0 as <-. injection H1 as <-. injection H2 as <-.
    injection Hsub as <-. reflexivity.
Defined.

Lemma conversions_match_arguments_witness :
  exists es,
    emittedFor exact_ceil_log10 Sample.llGetPid Sample.printOne Sample.rw0 0
    = Some es
    /\ forall e,
        In e es ->
        exists fmt, fst e = Some fmt
                    /\ Str.count "%" fmt = List.length (snd e).
Proof.
  apply (conversions_match_arguments exact_ceil_log10 Sample.llGetPid
           Sample.printOne Sample.rw0 (Sample.finalState Sample.printOne)
           success 0 Sample.tensor4x4).
  - vm_compute. reflexivity.
  - reflexivity.
  - intros ix ix' [<-|[<-|[]]] [<-|[<-|[]]]; reflexivity.
Defined.

Lemma hex_changes_value_specifier_only_witness :
  exists head sub subHex,
    getFormatSubstr (SSAValue Sample.f32 0) false None = Some sub
    /\ getFormatSubstr (SSAValue Sample.f32 0) true None = Some subHex
    /\ "pid (%u, %u, %u) idx (%1u)%s%f" = head ++ sub
    /\ formatLine (GlobalString 0) 0 1 (SSAValue Sample.f32 0)
                  (Sample.llGetPid 0, Sample.llGetPid 1, Sample.llGetPid 2)
                  [SSAValue Sample.i32 10] [1%Z] true
       = Some (head ++ subHex,
               [Sample.llGetPid 0; Sample.llGetPid 1; Sample.llGetPid 2;
                SSAValue Sample.i32 10; GlobalString 0;
                SSAValue Sample.f32 0]).
Proof.
  apply (hex_changes_value_specifier_only (GlobalString 0) 0 1
           (SSAValue Sample.f32 0)
           (Sample.llGetPid 0, Sample.llGetPid 1, Sample.llGetPid 2)
           [SSAValue Sample.i32 10] [1%Z]).
  reflexivity.
Defined.

Section ContractProperties.

Variable ceil_log10 : Z -> Z.
Variable llGetPid : nat -> Value.

Local Notation "'pids'" := (llGetPid 0, llGetPid 1, llGetPid 2).

(** X15: no assertion fires on a request within the contract: when the
    program ids are printable, every scalar operand has one element,
    every ranked operand has one index per element with one printable
    component per dimension, and every element is printable in the
    display mode of the request, the request is lowered from every
    state of the rewriter. *)
Theorem contract_suffices (op : PrintOp) (rw : Rewriter) :
  wellFormed llGetPid op ->
  exists rw',
    matchAndRewrite ceil_log10 llGetPid op rw = Some (success, rw')
    /\ erased rw' = true.
Proof.
  intros Hwf.
  destruct (Total.matchAndRewrite_total ceil_log10 llGetPid op rw Hwf)
    as [rw' Hrun].
  exists rw'. split; [assumption|].
  destruct (getOperands op) as [|o0 ops0] eqn:Eops.
  - rewrite Request.matchAndRewrite_no_operands in Hrun by assumption.
    destruct (pidSpecs pids); [|discriminate]. now injection Hrun as <-.
  - rewrite Request.matchAndRewrite_operands in Hrun by congruence.
    destruct (planOperands ceil_log10 (List.length (getOperands op)) pids
                           (getHex op) (getOperands op) 0); [|discriminate].
    now injection Hrun as <-.
Qed.

(** X16: every call of an operand is emitted against the format string
    built for the operand's first element, whatever the strings the
    other elements would give. *)
Theorem first_format_string_used (op : PrintOp) (rw rw' : Rewriter)
        (r : LogicalResult) (k : nat) (o : Operand)
        (elem0 : Value) (index0 : list Value) :
  matchAndRewrite ceil_log10 llGetPid op rw = Some (r, rw') ->
  nth_error (getOperands op) k = Some o ->
  nth_error (unpackLLElements o) 0 = Some elem0 ->
  nth_error (operandIndices o) 0 = Some index0 ->
  exists fmt0 args0 es,
    formatLine (prefixHandle rw) k (List.length (getOperands op)) elem0
               pids index0 (operandDimWidths ceil_log10 o) (getHex op)
    = Some (fmt0, args0)
    /\ emittedFor ceil_log10 llGetPid op rw k = Some es
    /\ nth_error es 0 = Some (Some fmt0, args0)
    /\ forall e, In e es -> fst e = Some fmt0.
Proof.
  intros Hrun Hnth He0 Hi0.
  destruct (Request.operand_emissions _ _ _ _ _ _ _ _ Hrun Hnth)
    as (ls & Hplan & Hem).
  destruct (Request.planElems_nth _ _ _ _ _ _ _ _ _ Hplan) as [Hlen Hls].
  destruct ls as [|l0 ls'].
  { destruct (unpackLLElements o); discriminate. }
  destruct (Hls 0 l0 eq_refl) as (e & ix & He & Hix & Hl0).
  cbn [Nat.add] in Hix. rewrite He0 in He. rewrite Hi0 in Hix.
  injection He as <-. injection Hix as <-.
  exists (lineFormat l0), (lineArgs (prefixHandle rw) pids l0). eexists.
  split; [now rewrite Tensor.formatLine_plan, Hl0|].
  split; [exact Hem|]. split; [reflexivity|].
  intros e Hin. apply in_map_iff in Hin as (l & <- & _). reflexivity.
Qed.

End ContractProperties.

Lemma contract_suffices_witness :
  exists rw',
    matchAndRewrite exact_ceil_log10 Sample.llGetPid Sample.printThree
                    Sample.rw0 = Some (success, rw')
    /\ erased rw' = true.
Proof.
  apply (contract_suffices exact_ceil_log10 Sample.llGetPid
           Sample.printThree Sample.rw0).
  unfold wellFormed, printable. cbn.
  repeat split; try discriminate.
  repeat constructor; cbn; try discriminate; try reflexivity;
    repeat constructor; cbn; try discriminate.
Defined.

Lemma first_format_string_used_witness :
  exists es,
    emittedFor exact_ceil_log10 Sample.llGetPid Sample.printOne Sample.rw0 0
    = Some es
    /\ forall e, In e es -> fst e = Some "pid (%u, %u, %u) idx (%1u, %1u)%s%f".
Proof.
  destruct (first_format_string_used exact_ceil_log10 Sample.llGetPid
              Sample.printOne Sample.rw0 (Sample.finalState Sample.printOne)
              success 0 Sample.tensor4x4 (SSAValue Sample.f32 0)
              [SSAValue Sample.i32 10; SSAValue Sample.i32 11])
    as (fmt0 & args0 & es & Hfmt & Hes & _ & Hall).
  - vm_compute. reflexivity.
  - reflexivity.
  - reflexivity.
  - reflexivity.
  - exists es. split; [exact Hes|]. intros e He.
    rewrite (Hall e He). vm_compute in Hfmt. now injection Hfmt as <- _.
Defined.
